(** * Crate digging: the album carousel and its preview playback

    A shallow embedding of the script of the [AlbumCrate] component
    (navigation, drag gesture, preview playback, genre filter, album
    loading) and of the request construction in [api.ts], followed by the
    properties of the carousel state machine.

    Conventions.
    - Every [ref] of the component is a field of [State], under the name it
      has in the script.  The pieces of the browser the script acts on are
      fields as well: the pending [setTimeout] callbacks, the calls to the
      API module still awaiting an answer, the console and the [keydown]
      listener.
    - JavaScript numbers that the script uses as integers (indices, ids,
      pixel coordinates, counts) are [Z].
    - An [async] function is cut at its [await]: the part before it runs
      when the function is called, the part after it when the awaited
      promise settles, with arbitrary events in between. *)

From stdpp Require Import base list strings gmap.
From Stdlib Require Import ZArith Ascii DecimalString QArith Lia.

Open Scope string_scope.
Open Scope Z_scope.
Open Scope list_scope.

(** ** Data model ([types.ts]) *)

Module Album.
Record t := mk {
  id : Z;
  title : string;
  artist : string;
  cover_url : string;
  preview_url : string;
  year : option string;
  genre : option string;
  genres : option (list string);
  deezer_id : Z;
  deezer_link : option string;
  nb_tracks : option Z
}.
End Album.

Module AlbumCollection.
Record t := mk {
  albums : list Album.t;
  total : Z
}.
End AlbumCollection.

Module Genre.
Record t := mk {
  id : Z;
  name : string
}.
End Genre.

(** ** The audio element behind [audioRef]

    Only what the script touches: the source, the volume, the paused flag
    and the playback position.  [blocked] is the autoplay policy of the
    runtime: when it is set, [play()] is rejected and the element stays
    paused (the script swallows the rejection). *)

Module Audio.
Record t := mk {
  src : string;
  volume : Q;
  paused : bool;
  currentTime : Z;
  blocked : bool
}.

Definition set_src (v : string) (a : t) : t :=
  mk v (volume a) (paused a) (currentTime a) (blocked a).
Definition set_volume (v : Q) (a : t) : t :=
  mk (src a) v (paused a) (currentTime a) (blocked a).
Definition set_currentTime (v : Z) (a : t) : t :=
  mk (src a) (volume a) (paused a) v (blocked a).
Definition pause (a : t) : t :=
  mk (src a) (volume a) true (currentTime a) (blocked a).
Definition play (a : t) : t :=
  if blocked a then a
  else mk (src a) (volume a) false (currentTime a) (blocked a).

(** A freshly created [<audio>] element. *)
Definition fresh (autoplay_blocked : bool) : t :=
  mk "" 1%Q true 0 autoplay_blocked.
End Audio.

(** ** Pending work of the event loop *)

(** The only function the script ever hands to [setTimeout]. *)
Inductive Callback := cb_playPreview.

Record Timer := { callback : Callback; delay : Z }.

(** A call into the API module whose promise has not settled yet, with the
    arguments of the call. *)
Inductive Request :=
| ReqGenres
| ReqAlbums (count : option Z) (genreIds : option (list Z))
            (minTracks : option Z).

(** How a [fetch] ends: the promise is rejected, or a response arrives with
    its [ok] flag and a body that parses ([Some]) or does not. *)
Inductive Fetched (A : Type) :=
| NetworkError
| Response (ok : bool) (json : option A).
Arguments NetworkError {A}.
Arguments Response {A} ok json.

(** What an API function throws. *)
Inductive Err :=
| Error (message : string)
| TypeError
| SyntaxError.

(** ** Component state *)

Record State := {
  albums : list Album.t;
  currentIndex : Z;
  isLoading : bool;
  error : option string;
  audioRef : option Audio.t;
  isPlaying : bool;
  isDragging : bool;
  dragStartX : Z;
  dragOffset : Z;
  hasInteracted : bool;
  genres : list Genre.t;
  selectedGenres : list Z;
  showGenreFilter : bool;
  showOnlyAlbums : bool;
  timers : list Timer;
  requests : list Request;
  console : list string;
  listening : bool
}.

Definition set_albums v (s : State) : State :=
  {| albums := v; currentIndex := currentIndex s; isLoading := isLoading s;
     error := error s; audioRef := audioRef s; isPlaying := isPlaying s;
     isDragging := isDragging s; dragStartX := dragStartX s;
     dragOffset := dragOffset s; hasInteracted := hasInteracted s;
     genres := genres s; selectedGenres := selectedGenres s;
     showGenreFilter := showGenreFilter s;
     showOnlyAlbums := showOnlyAlbums s; timers := timers s;
     requests := requests s; console := console s;
     listening := listening s |}.

Definition set_currentIndex v (s : State) : State :=
  {| albums := albums s; currentIndex := v; isLoading := isLoading s;
     error := error s; audioRef := audioRef s; isPlaying := isPlaying s;
     isDragging := isDragging s; dragStartX := dragStartX s;
     dragOffset := dragOffset s; hasInteracted := hasInteracted s;
     genres := genres s; selectedGenres := selectedGenres s;
     showGenreFilter := showGenreFilter s;
     showOnlyAlbums := showOnlyAlbums s; timers := timers s;
     requests := requests s; console := console s;
     listening := listening s |}.

Definition set_isLoading v (s : State) : State :=
  {| albums := albums s; currentIndex := currentIndex s; isLoading := v;
     error := error s; audioRef := audioRef s; isPlaying := isPlaying s;
     isDragging := isDragging s; dragStartX := dragStartX s;
     dragOffset := dragOffset s; hasInteracted := hasInteracted s;
     genres := genres s; selectedGenres := selectedGenres s;
     showGenreFilter := showGenreFilter s;
     showOnlyAlbums := showOnlyAlbums s; timers := timers s;
     requests := requests s; console := console s;
     listening := listening s |}.

Definition set_error v (s : State) : State :=
  {| albums := albums s; currentIndex := currentIndex s;
     isLoading := isLoading s; error := v; audioRef := audioRef s;
     isPlaying := isPlaying s; isDragging := isDragging s;
     dragStartX := dragStartX s; dragOffset := dragOffset s;
     hasInteracted := hasInteracted s; genres := genres s;
     selectedGenres := selectedGenres s;
     showGenreFilter := showGenreFilter s;
     showOnlyAlbums := showOnlyAlbums s; timers := timers s;
     requests := requests s; console := console s;
     listening := listening s |}.

Definition set_audioRef v (s : State) : State :=
  {| albums := albums s; currentIndex := currentIndex s;
     isLoading := isLoading s; error := error s; audioRef := v;
     isPlaying := isPlaying s; isDragging := isDragging s;
     dragStartX := dragStartX s; dragOffset := dragOffset s;
     hasInteracted := hasInteracted s; genres := genres s;
     selectedGenres := selectedGenres s;
     showGenreFilter := showGenreFilter s;
     showOnlyAlbums := showOnlyAlbums s; timers := timers s;
     requests := requests s; console := console s;
     listening := listening s |}.

Definition set_isPlaying v (s : State) : State :=
  {| albums := albums s; currentIndex := currentIndex s;
     isLoading := isLoading s; error := error s; audioRef := audioRef s;
     isPlaying := v; isDragging := isDragging s; dragStartX := dragStartX s;
     dragOffset := dragOffset s; hasInteracted := hasInteracted s;
     genres := genres s; selectedGenres := selectedGenres s;
     showGenreFilter := showGenreFilter s;
     showOnlyAlbums := showOnlyAlbums s; timers := timers s;
     requests := requests s; console := console s;
     listening := listening s |}.

Definition set_isDragging v (s : State) : State :=
  {| albums := albums s; currentIndex := currentIndex s;
     isLoading := isLoading s; error := error s; audioRef := audioRef s;
     isPlaying := isPlaying s; isDragging := v; dragStartX := dragStartX s;
     dragOffset := dragOffset s; hasInteracted := hasInteracted s;
     genres := genres s; selectedGenres := selectedGenres s;
     showGenreFilter := showGenreFilter s;
     showOnlyAlbums := showOnlyAlbums s; timers := timers s;
     requests := requests s; console := console s;
     listening := listening s |}.

Definition set_dragStartX v (s : State) : State :=
  {| albums := albums s; currentIndex := currentIndex s;
     isLoading := isLoading s; error := error s; audioRef := audioRef s;
     isPlaying := isPlaying s; isDragging := isDragging s; dragStartX := v;
     dragOffset := dragOffset s; hasInteracted := hasInteracted s;
     genres := genres s; selectedGenres := selectedGenres s;
     showGenreFilter := showGenreFilter s;
     showOnlyAlbums := showOnlyAlbums s; timers := timers s;
     requests := requests s; console := console s;
     listening := listening s |}.

Definition set_dragOffset v (s : State) : State :=
  {| albums := albums s; currentIndex := currentIndex s;
     isLoading := isLoading s; error := error s; audioRef := audioRef s;
     isPlaying := isPlaying s; isDragging := isDragging s;
     dragStartX := dragStartX s; dragOffset := v;
     hasInteracted := hasInteracted s; genres := genres s;
     selectedGenres := selectedGenres s;
     showGenreFilter := showGenreFilter s;
     showOnlyAlbums := showOnlyAlbums s; timers := timers s;
     requests := requests s; console := console s;
     listening := listening s |}.

Definition set_hasInteracted v (s : State) : State :=
  {| albums := albums s; currentIndex := currentIndex s;
     isLoading := isLoading s; error := error s; audioRef := audioRef s;
     isPlaying := isPlaying s; isDragging := isDragging s;
     dragStartX := dragStartX s; dragOffset := dragOffset s;
     hasInteracted := v; genres := genres s;
     selectedGenres := selectedGenres s;
     showGenreFilter := showGenreFilter s;
     showOnlyAlbums := showOnlyAlbums s; timers := timers s;
     requests := requests s; console := console s;
     listening := listening s |}.

Definition set_genres v (s : State) : State :=
  {| albums := albums s; currentIndex := currentIndex s;
     isLoading := isLoading s; error := error s; audioRef := audioRef s;
     isPlaying := isPlaying s; isDragging := isDragging s;
     dragStartX := dragStartX s; dragOffset := dragOffset s;
     hasInteracted := hasInteracted s; genres := v;
     selectedGenres := selectedGenres s;
     showGenreFilter := showGenreFilter s;
     showOnlyAlbums := showOnlyAlbums s; timers := timers s;
     requests := requests s; console := console s;
     listening := listening s |}.

Definition set_selectedGenres v (s : State) : State :=
  {| albums := albums s; currentIndex := currentIndex s;
     isLoading := isLoading s; error := error s; audioRef := audioRef s;
     isPlaying := isPlaying s; isDragging := isDragging s;
     dragStartX := dragStartX s; dragOffset := dragOffset s;
     hasInteracted := hasInteracted s; genres := genres s;
     selectedGenres := v; showGenreFilter := showGenreFilter s;
     showOnlyAlbums := showOnlyAlbums s; timers := timers s;
     requests := requests s; console := console s;
     listening := listening s |}.

Definition set_showGenreFilter v (s : State) : State :=
  {| albums := albums s; currentIndex := currentIndex s;
     isLoading := isLoading s; error := error s; audioRef := audioRef s;
     isPlaying := isPlaying s; isDragging := isDragging s;
     dragStartX := dragStartX s; dragOffset := dragOffset s;
     hasInteracted := hasInteracted s; genres := genres s;
     selectedGenres := selectedGenres s; showGenreFilter := v;
     showOnlyAlbums := showOnlyAlbums s; timers := timers s;
     requests := requests s; console := console s;
     listening := listening s |}.

Definition set_showOnlyAlbums v (s : State) : State :=
  {| albums := albums s; currentIndex := currentIndex s;
     isLoading := isLoading s; error := error s; audioRef := audioRef s;
     isPlaying := isPlaying s; isDragging := isDragging s;
     dragStartX := dragStartX s; dragOffset := dragOffset s;
     hasInteracted := hasInteracted s; genres := genres s;
     selectedGenres := selectedGenres s;
     showGenreFilter := showGenreFilter s; showOnlyAlbums := v;
     timers := timers s; requests := requests s; console := console s;
     listening := listening s |}.

Definition set_timers v (s : State) : State :=
  {| albums := albums s; currentIndex := currentIndex s;
     isLoading := isLoading s; error := error s; audioRef := audioRef s;
     isPlaying := isPlaying s; isDragging := isDragging s;
     dragStartX := dragStartX s; dragOffset := dragOffset s;
     hasInteracted := hasInteracted s; genres := genres s;
     selectedGenres := selectedGenres s;
     showGenreFilter := showGenreFilter s;
     showOnlyAlbums := showOnlyAlbums s; timers := v; requests := requests s;
     console := console s; listening := listening s |}.

Definition set_requests v (s : State) : State :=
  {| albums := albums s; currentIndex := currentIndex s;
     isLoading := isLoading s; error := error s; audioRef := audioRef s;
     isPlaying := isPlaying s; isDragging := isDragging s;
     dragStartX := dragStartX s; dragOffset := dragOffset s;
     hasInteracted := hasInteracted s; genres := genres s;
     selectedGenres := selectedGenres s;
     showGenreFilter := showGenreFilter s;
     showOnlyAlbums := showOnlyAlbums s; timers := timers s; requests := v;
     console := console s; listening := listening s |}.

Definition set_console v (s : State) : State :=
  {| albums := albums s; currentIndex := currentIndex s;
     isLoading := isLoading s; error := error s; audioRef := audioRef s;
     isPlaying := isPlaying s; isDragging := isDragging s;
     dragStartX := dragStartX s; dragOffset := dragOffset s;
     hasInteracted := hasInteracted s; genres := genres s;
     selectedGenres := selectedGenres s;
     showGenreFilter := showGenreFilter s;
     showOnlyAlbums := showOnlyAlbums s; timers := timers s;
     requests := requests s; console := v; listening := listening s |}.

Definition set_listening v (s : State) : State :=
  {| albums := albums s; currentIndex := currentIndex s;
     isLoading := isLoading s; error := error s; audioRef := audioRef s;
     isPlaying := isPlaying s; isDragging := isDragging s;
     dragStartX := dragStartX s; dragOffset := dragOffset s;
     hasInteracted := hasInteracted s; genres := genres s;
     selectedGenres := selectedGenres s;
     showGenreFilter := showGenreFilter s;
     showOnlyAlbums := showOnlyAlbums s; timers := timers s;
     requests := requests s; console := console s; listening := v |}.


(** The refs as [<script setup>] initialises them; nothing is pending. *)
Definition setup : State :=
  {| albums := []; currentIndex := 0; isLoading := true; error := None;
     audioRef := None; isPlaying := false; isDragging := false;
     dragStartX := 0; dragOffset := 0; hasInteracted := false;
     genres := []; selectedGenres := []; showGenreFilter := false;
     showOnlyAlbums := false; timers := []; requests := [];
     console := []; listening := false |}.

(** ** JavaScript array and number primitives used by the script *)

(** [a[i]]: [undefined] outside the array. *)
Definition js_index {A} (a : list A) (i : Z) : option A :=
  if i <? 0 then None else a !! Z.to_nat i.

(** [a.length] *)
Definition js_length {A} (a : list A) : Z := Z.of_nat (length a).

(** [a.indexOf(x)]: position of the first occurrence, [-1] when absent. *)
Fixpoint indexOf (x : Z) (a : list Z) : Z :=
  match a with
  | [] => -1
  | y :: a' =>
      if x =? y then 0
      else let r := indexOf x a' in if r =? -1 then -1 else r + 1
  end.

(** [a.splice(i, 1)] for an index [i >= 0]. *)
Definition splice1 (i : Z) (a : list Z) : list Z := delete (Z.to_nat i) a.

(** [a.push(x)] *)
Definition push {A} (x : A) (a : list A) : list A := (a ++ [x])%list.

(** [String(n)] for an integer [n]. *)
Definition js_string_of_Z (n : Z) : string :=
  NilZero.string_of_int (Z.to_int n).

(** [a.join(',')] on an array of integers. *)
Definition join_comma (a : list Z) : string :=
  String.concat "," (js_string_of_Z <$> a).

(** ** [api.ts] *)

Definition default_api_base : string := "http://localhost:8000".

(** [import.meta.env.VITE_API_URL || 'http://localhost:8000']: an unset or
    empty variable falls back to the local default. *)
Definition API_BASE (VITE_API_URL : option string) : string :=
  match VITE_API_URL with
  | Some u => if String.eqb u "" then default_api_base else u
  | None => default_api_base
  end.

(** The URL [fetchRandomAlbums] requests.  [count] defaults to 10. *)
Definition fetchRandomAlbums_url (base : string) (count : option Z)
    (genreIds : option (list Z)) (minTracks : option Z) : string :=
  let count := default 10 count in
  let url := base +:+ "/albums/random?count=" +:+ js_string_of_Z count in
  let url :=
    match genreIds with
    | Some ids =>
        if 0 <? js_length ids then url +:+ "&genres=" +:+ join_comma ids
        else url
    | None => url
    end in
  let url :=
    match minTracks with
    | Some m =>
        if 0 <? m then url +:+ "&min_tracks=" +:+ js_string_of_Z m else url
    | None => url
    end in
  url.

Definition fetchGenres_url (base : string) : string := base +:+ "/genres".

(** What the promise of an API function settles to, given how its [fetch]
    ended: the parsed body, or the error thrown. *)
Definition fetchRandomAlbums_settle (r : Fetched AlbumCollection.t)
    : AlbumCollection.t + Err :=
  match r with
  | NetworkError => inr TypeError
  | Response false _ => inr (Error "Failed to fetch albums")
  | Response true (Some data) => inl data
  | Response true None => inr SyntaxError
  end.

Definition fetchGenres_settle (r : Fetched (list Genre.t))
    : list Genre.t + Err :=
  match r with
  | NetworkError => inr TypeError
  | Response false _ => inr (Error "Failed to fetch genres")
  | Response true (Some data) => inl data
  | Response true None => inr SyntaxError
  end.

(** ** Statements and the states between them

    A function body is a list of assignments, run left to right.  [trace]
    lists the state after each of them, so that what holds between two
    statements of a body can be stated. *)

Definition Stmt := State -> State.
Definition Prog := list Stmt.

Definition run (p : Prog) (s : State) : State :=
  foldl (fun s (f : Stmt) => f s) s p.

Fixpoint trace (p : Prog) (s : State) : list State :=
  match p with
  | [] => []
  | f :: p' => f s :: trace p' (f s)
  end.

(** [audioRef.value.m(...)] or [audioRef.value.x = ...], on a bound ref. *)
Definition on_audio (f : Audio.t -> Audio.t) : Stmt :=
  fun s => set_audioRef (f <$> audioRef s) s.

(** [setTimeout(f, d)] *)
Definition setTimeout (f : Callback) (d : Z) : Stmt :=
  fun s => set_timers (push {| callback := f; delay := d |} (timers s)) s.

(** ** The script of [AlbumCrate] *)

(** The computed refs. *)
Definition currentAlbum (s : State) : option Album.t :=
  js_index (albums s) (currentIndex s).
Definition prevAlbum (s : State) : option Album.t :=
  js_index (albums s) (currentIndex s - 1).
Definition nextAlbum (s : State) : option Album.t :=
  js_index (albums s) (currentIndex s + 1).

(** ['All Genres'] when nothing is selected, else the names of the selected
    genres in the order of [genres], joined by [', ']. *)
Definition selectedGenreNames (s : State) : string :=
  if js_length (selectedGenres s) =? 0 then "All Genres"
  else
    String.concat ", "
      (Genre.name <$>
       filter (fun g => Genre.id g ∈ selectedGenres s) (genres s)).

Definition stopPreview_prog (s : State) : Prog :=
  match audioRef s with
  | None => []
  | Some _ =>
      [ on_audio Audio.pause;
        on_audio (Audio.set_currentTime 0);
        set_isPlaying false ]
  end.

Definition stopPreview (s : State) : State := run (stopPreview_prog s) s.

Definition playPreview_prog (s : State) : Prog :=
  match currentAlbum s, audioRef s with
  | Some album, Some _ =>
      [ set_hasInteracted true;
        on_audio (Audio.set_src (Album.preview_url album));
        on_audio (Audio.set_volume (1 # 2)%Q);
        on_audio Audio.play;
        set_isPlaying true ]
  | _, _ => []
  end.

Definition playPreview (s : State) : State := run (playPreview_prog s) s.

Definition schedule_autoplay : Stmt :=
  fun s => if hasInteracted s then setTimeout cb_playPreview 150 s else s.

Definition goToNext_prog (s : State) : Prog :=
  if currentIndex s <? js_length (albums s) - 1 then
    (stopPreview_prog s ++
     [ (fun s => set_currentIndex (currentIndex s + 1) s);
       schedule_autoplay ])%list
  else [].

Definition goToNext (s : State) : State := run (goToNext_prog s) s.

Definition goToPrev_prog (s : State) : Prog :=
  if 0 <? currentIndex s then
    (stopPreview_prog s ++
     [ (fun s => set_currentIndex (currentIndex s - 1) s);
       schedule_autoplay ])%list
  else [].

Definition goToPrev (s : State) : State := run (goToPrev_prog s) s.

Definition toggleGenre (genreId : Z) (s : State) : State :=
  let s := stopPreview s in
  let index := indexOf genreId (selectedGenres s) in
  if index =? -1 then set_selectedGenres (push genreId (selectedGenres s)) s
  else set_selectedGenres (splice1 index (selectedGenres s)) s.

Definition clearGenreFilter (s : State) : State := set_selectedGenres [] s.

(** [loadGenres] up to its [await], and from it on. *)
Definition loadGenres_begin (s : State) : State :=
  set_requests (push ReqGenres (requests s)) s.

Definition loadGenres_resume (r : list Genre.t + Err) (s : State) : State :=
  match r with
  | inl data => set_genres data s
  | inr _ => set_console (push "Failed to load genres" (console s)) s
  end.

Definition load_error_message : string :=
  "Failed to load albums. Make sure the backend is running.".

(** The arguments [loadAlbums] passes to [fetchRandomAlbums]. *)
Definition loadAlbums_genreIds (s : State) : option (list Z) :=
  if 0 <? js_length (selectedGenres s) then Some (selectedGenres s)
  else None.

Definition loadAlbums_minTracks (s : State) : option Z :=
  if showOnlyAlbums s then Some 2 else None.

(** [loadAlbums] up to its [await]: the call to [fetchRandomAlbums] is
    recorded as pending. *)
Definition loadAlbums_begin (s : State) : State :=
  let s := stopPreview s in
  let s := set_isLoading true s in
  let s := set_error None s in
  let s := set_showGenreFilter false s in
  let genreIds := loadAlbums_genreIds s in
  let minTracks := loadAlbums_minTracks s in
  set_requests (push (ReqAlbums (Some 10) genreIds minTracks) (requests s)) s.

(** [loadAlbums] from its [await] on: [try] body or [catch], then
    [finally]. *)
Definition loadAlbums_resume (r : AlbumCollection.t + Err) (s : State)
    : State :=
  let s :=
    match r with
    | inl data =>
        let s := set_albums (AlbumCollection.albums data) s in
        set_currentIndex 0 s
    | inr _ => set_error (Some load_error_message) s
    end in
  set_isLoading false s.

(** [handleKeydown(e)], as a function of [e.key].  The [e.preventDefault()]
    of the space key acts on the event alone and leaves the state as it
    is. *)
Definition handleKeydown (key : string) (s : State) : State :=
  if String.eqb key "ArrowRight" then goToNext s
  else if String.eqb key "ArrowLeft" then goToPrev s
  else if String.eqb key " " then
    if isPlaying s then stopPreview s else playPreview s
  else s.

(** A mouse event carries [clientX]; a touch event a non-empty list of
    touches, of which the first is read. *)
Inductive PointerInput :=
| MouseEvent (clientX : Z)
| TouchEvent (touch0_clientX : Z) (others : list Z).

Definition pointerX (e : PointerInput) : Z :=
  match e with
  | MouseEvent x => x
  | TouchEvent x _ => x
  end.

Definition handleDragStart (e : PointerInput) (s : State) : State :=
  let s := set_isDragging true s in
  let s := set_dragStartX (pointerX e) s in
  set_dragOffset 0 s.

Definition handleDragMove (e : PointerInput) (s : State) : State :=
  if negb (isDragging s) then s
  else
    let currentX := pointerX e in
    set_dragOffset (currentX - dragStartX s) s.

Definition handleDragEnd (s : State) : State :=
  if negb (isDragging s) then s
  else
    let s := set_isDragging false s in
    let threshold := 80 in
    let s :=
      if threshold <? dragOffset s then goToPrev s
      else if dragOffset s <? - threshold then goToNext s
      else s in
    set_dragOffset 0 s.

Definition onMounted (s : State) : State :=
  let s := loadGenres_begin s in
  let s := loadAlbums_begin s in
  set_listening true s.

(** Mounting binds the template ref to the [<audio>] element, then runs
    the [onMounted] hook. *)
Definition mount (a : Audio.t) : State :=
  onMounted (set_audioRef (Some a) setup).

(** ** What the template renders

    [v-if="isLoading"], [v-else-if="error"], [v-else-if="albums.length > 0"];
    an empty error string is falsy. *)

Inductive View :=
| ViewLoading
| ViewError (message : string)
| ViewCrate
| ViewNothing.

Definition view (s : State) : View :=
  if isLoading s then ViewLoading
  else match error s with
       | Some m => if String.eqb m "" then
                     (if 0 <? js_length (albums s) then ViewCrate
                      else ViewNothing)
                   else ViewError m
       | None => if 0 <? js_length (albums s) then ViewCrate else ViewNothing
       end.

(** [:disabled] of the two navigation buttons and the progress indicator
    [{{ currentIndex + 1 }} / {{ albums.length }}]. *)
Definition prev_disabled (s : State) : bool := currentIndex s =? 0.
Definition next_disabled (s : State) : bool :=
  currentIndex s =? js_length (albums s) - 1.
Definition progress_indicator (s : State) : string :=
  js_string_of_Z (currentIndex s + 1) +:+ " / " +:+
  js_string_of_Z (js_length (albums s)).

(** ** Events of the mounted component *)

Inductive Event :=
| EvClickPrev
| EvClickNext
| EvClickCard
| EvKeydown (key : string)
| EvEnded
| EvDragStart (e : PointerInput)
| EvDragMove (e : PointerInput)
| EvDragEnd
| EvLoadAlbums
| EvReleaseType (albumsOnly : bool)
| EvClickFilter
| EvClearGenreFilter
| EvToggleGenre (genreId : Z)
| EvTimeout (k : nat)
| EvAlbumsSettled (k : nat) (r : Fetched AlbumCollection.t)
| EvGenresSettled (k : nat) (r : Fetched (list Genre.t)).

Definition run_callback (c : Callback) (s : State) : State :=
  match c with
  | cb_playPreview => playPreview s
  end.

(** One turn of the event loop.  A timer or a settled request is addressed
    by its position among the pending ones; an event that cannot occur in
    the state (no such timer, no such request, no listener) changes
    nothing. *)
Definition step (s : State) (ev : Event) : State :=
  match ev with
  | EvClickPrev => goToPrev s
  | EvClickNext => goToNext s
  | EvClickCard => if isPlaying s then stopPreview s else playPreview s
  | EvKeydown key => if listening s then handleKeydown key s else s
  | EvEnded =>
      match audioRef s with
      | Some _ => set_isPlaying false (on_audio Audio.pause s)
      | None => s
      end
  | EvDragStart e => handleDragStart e s
  | EvDragMove e => handleDragMove e s
  | EvDragEnd => handleDragEnd s
  | EvLoadAlbums => loadAlbums_begin s
  | EvReleaseType b => loadAlbums_begin (set_showOnlyAlbums b s)
  | EvClickFilter => set_showGenreFilter (negb (showGenreFilter s)) s
  | EvClearGenreFilter => clearGenreFilter s
  | EvToggleGenre g => toggleGenre g s
  | EvTimeout k =>
      match timers s !! k with
      | Some t => run_callback (callback t) (set_timers (delete k (timers s)) s)
      | None => s
      end
  | EvAlbumsSettled k r =>
      match requests s !! k with
      | Some (ReqAlbums _ _ _) =>
          loadAlbums_resume (fetchRandomAlbums_settle r)
            (set_requests (delete k (requests s)) s)
      | _ => s
      end
  | EvGenresSettled k r =>
      match requests s !! k with
      | Some ReqGenres =>
          loadGenres_resume (fetchGenres_settle r)
            (set_requests (delete k (requests s)) s)
      | _ => s
      end
  end.

Definition run_events (evs : list Event) (s : State) : State :=
  foldl step s evs.

(** The states the mounted component can be in. *)
Inductive reachable : State -> Prop :=
| reachable_mount a : reachable (mount a)
| reachable_step s ev : reachable s -> reachable (step s ev).

(** ** Fixtures: the crate and the genres of the component's tests *)

Definition album1 : Album.t :=
  Album.mk 1 "Test Album 1" "Artist 1" "https://example.com/cover1.jpg"
    "https://example.com/preview1.mp3" (Some "2024") (Some "Rock") None 1
    (Some "https://deezer.com/album/1") (Some 10).

Definition album2 : Album.t :=
  Album.mk 2 "Test Album 2" "Artist 2" "https://example.com/cover2.jpg"
    "https://example.com/preview2.mp3" (Some "2023") (Some "Jazz") None 2
    (Some "https://deezer.com/album/2") (Some 8).

Definition mockAlbums : AlbumCollection.t :=
  AlbumCollection.mk [album1; album2] 2.

Definition mockGenres : list Genre.t :=
  [Genre.mk 132 "Pop"; Genre.mk 152 "Rock"; Genre.mk 129 "Jazz"].

(** Mounted, both initial requests answered: genres first, then albums. *)
Definition loaded : State :=
  run_events
    [ EvGenresSettled 0 (Response true (Some mockGenres));
      EvAlbumsSettled 0 (Response true (Some mockAlbums)) ]
    (mount (Audio.fresh false)).

(** ** Predicates, derived notions and sample states *)

(** Playback is stopped: the flag is down and the device, when there is
    one, is paused at position zero. *)
Definition Stopped (s : State) : Prop :=
  isPlaying s = false /\
  match audioRef s with
  | Some a => Audio.paused a = true /\ Audio.currentTime a = 0
  | None => True
  end.

(** The flag is only ever raised on a bound device. *)
Definition playing_bound (s : State) : Prop :=
  isPlaying s = true -> is_Some (audioRef s).

(** Events that only move through the crate. *)
Definition is_navigation (ev : Event) : bool :=
  match ev with
  | EvClickPrev | EvClickNext | EvDragEnd => true
  | EvKeydown key => String.eqb key "ArrowRight" || String.eqb key "ArrowLeft"
  | _ => false
  end.

(** The neutral gesture state [{dragging: false, offset: 0}]. *)
Definition reset_gesture (s : State) : State :=
  set_dragOffset 0 (set_isDragging false s).

(** A drag on the first album of the loaded crate, released at [x]. *)
Definition drag_release (from x : Z) (s : State) : State :=
  run_events
    [EvDragStart (MouseEvent from); EvDragMove (MouseEvent x); EvDragEnd] s.

Definition index_inv (s : State) : Prop :=
  albums s <> [] -> 0 <= currentIndex s < js_length (albums s).

(** Same albums and same index. *)
Definition same_crate (s s' : State) : Prop :=
  albums s' = albums s /\ currentIndex s' = currentIndex s.

Definition audio_bound (s : State) : Prop := is_Some (audioRef s).

(** The first album of the loaded crate, playing. *)
Definition playing : State := step loaded EvClickCard.

(** What [toggleGenre] does to the array of selected ids. *)
Definition toggle_selected (genreId : Z) (sel : list Z) : list Z :=
  let index := indexOf genreId sel in
  if index =? -1 then push genreId sel else splice1 index sel.

(** The loaded crate with Jazz (129) and Rock (152) selected, in that
    order. *)
Definition jazz_rock : State :=
  run_events [EvToggleGenre 129; EvToggleGenre 152] loaded.

(** The query string as the interface describes it: [key=value] pairs in
    the order given, joined by [&]. *)
Definition render_param (p : string * string) : string :=
  fst p +:+ "=" +:+ snd p.

Definition query_string (ps : list (string * string)) : string :=
  String.concat "&" (render_param <$> ps).

(** [count] always; [genres] when some genre is selected; [min_tracks] when
    a positive minimum is asked for. *)
Definition albums_query_params (count : Z) (genreIds : list Z)
    (minTracks : option Z) : list (string * string) :=
  [("count", js_string_of_Z count)] ++
  match genreIds with
  | [] => []
  | _ :: _ => [("genres", join_comma genreIds)]
  end ++
  match minTracks with
  | Some m => if 0 <? m then [("min_tracks", js_string_of_Z m)] else []
  | None => []
  end.

Definition loadAlbums_params (s : State) : list (string * string) :=
  albums_query_params 10 (selectedGenres s)
    (if showOnlyAlbums s then Some 2 else None).

Definition request_url (base : string) (r : Request) : string :=
  match r with
  | ReqGenres => fetchGenres_url base
  | ReqAlbums count genreIds minTracks =>
      fetchRandomAlbums_url base count genreIds minTracks
  end.

(** The URL requested by a call of [loadAlbums] in state [s]. *)
Definition loadAlbums_url (base : string) (s : State) : option string :=
  request_url base <$> last (requests (loadAlbums_begin s)).

(** Jazz then Rock selected, albums only. *)
Definition jazz_rock_albums : State := step jazz_rock (EvReleaseType true).

(** Rock then Jazz selected, albums only: the same set of genres. *)
Definition rock_jazz_albums : State :=
  run_events [EvToggleGenre 152; EvToggleGenre 129; EvReleaseType true]
    loaded.

(** The second album of the loaded crate shown, a reload under way. *)
Definition reloading : State :=
  run_events [EvClickNext; EvLoadAlbums] loaded.

(** The reload is answered with a server error. *)
Definition reload_failed : State :=
  step reloading (EvAlbumsSettled 0 (Response false None)).

Definition album3 : Album.t :=
  Album.mk 3 "Test Album 3" "Artist 3" "https://example.com/cover3.jpg"
    "https://example.com/preview3.mp3" None None None 3 None None.

Definition newCrate : AlbumCollection.t := AlbumCollection.mk [album3] 1.

(** Space pressed while the reload of a loaded crate is pending, then the
    new crate arrives. *)
Definition reload_space : State :=
  run_events
    [ EvLoadAlbums;
      EvKeydown " ";
      EvAlbumsSettled 0 (Response true (Some newCrate)) ]
    loaded.

(** A preview played, next album, reload requested before the deferred
    autoplay fires, the timer fires, then the new crate arrives. *)
Definition reload_autoplay : State :=
  run_events
    [ EvClickCard;
      EvClickNext;
      EvLoadAlbums;
      EvTimeout 0;
      EvAlbumsSettled 0 (Response true (Some newCrate)) ]
    loaded.

(** ** The remaining pieces of the script *)

(** [encodeURIComponent] on a string held as its UTF-8 bytes: letters,
    digits and [- _ . ! ~ * ' ( )] stay, every other byte becomes [%XX]
    with upper-case hexadecimal digits. *)
Definition is_unreserved (c : Ascii.ascii) : bool :=
  let n := Ascii.nat_of_ascii c in
  ((65 <=? n) && (n <=? 90))%nat || ((97 <=? n) && (n <=? 122))%nat ||
  ((48 <=? n) && (n <=? 57))%nat ||
  existsb (Ascii.eqb c) (String.list_ascii_of_string "-_.!~*'()").

Definition hex_digit (n : nat) : Ascii.ascii :=
  nth n (String.list_ascii_of_string "0123456789ABCDEF") "0"%char.

Definition percent_encode (c : Ascii.ascii) : string :=
  let n := Ascii.nat_of_ascii c in
  String "%" (String (hex_digit (n / 16)) (String (hex_digit (n mod 16)) "")).

Fixpoint encodeURIComponent (s : string) : string :=
  match s with
  | EmptyString => ""
  | String c s' =>
      (if is_unreserved c then String c "" else percent_encode c) +:+
      encodeURIComponent s'
  end.



(** A whole drag: press at [x0], the moves in [xs], release. *)
Definition drag_gesture (x0 : PointerInput) (xs : list PointerInput)
    : list Event :=
  EvDragStart x0 :: (EvDragMove <$> xs) ++ [EvDragEnd].

(** The offset recorded at release: that of the last move, 0 without one. *)
Definition release_offset (x0 : PointerInput) (xs : list PointerInput) : Z :=
  match last xs with
  | Some x => pointerX x - pointerX x0
  | None => 0
  end.

(** The answer to an albums request is a success. *)
Definition albums_loaded (r : Fetched AlbumCollection.t) : bool :=
  match fetchRandomAlbums_settle r with
  | inl _ => true
  | inr _ => false
  end.

(** The event replaces the crate: a successful answer to a pending albums
    request. *)
Definition replaces_crate (s : State) (ev : Event) : bool :=
  match ev with
  | EvAlbumsSettled k r =>
      match requests s !! k with
      | Some (ReqAlbums _ _ _) => albums_loaded r
      | _ => false
      end
  | _ => false
  end.

(** The event edits the genre selection. *)
Definition edits_selection (ev : Event) : bool :=
  match ev with
  | EvToggleGenre _ | EvClearGenreFilter => true
  | _ => false
  end.

(** The index is never negative and never beyond the last album; it is 0
    in an empty crate. *)
Definition index_range (s : State) : Prop :=
  0 <= currentIndex s <= Z.max 0 (js_length (albums s) - 1).

(** Two reloads requested one after the other from the loaded crate. *)
Definition two_reloads : State :=
  run_events [EvLoadAlbums; EvLoadAlbums] loaded.


(** Characters that an encoded component can hold: the unreserved ones
    and the percent sign. *)
Definition url_safe (c : Ascii.ascii) : bool :=
  is_unreserved c || Ascii.eqb c "%".

(** The event is the firing of a timer. *)
Definition is_timeout (ev : Event) : bool :=
  match ev with
  | EvTimeout _ => true
  | _ => false
  end.

(** ** Basic facts *)

Lemma run_app (p q : Prog) (s : State) : run (p ++ q) s = run q (run p s).
Proof. unfold run. apply foldl_app. Qed.

Lemma trace_app (p q : Prog) (s : State) :
  trace (p ++ q) s = trace p s ++ trace q (run p s).
Proof.
  revert s. induction p as [|f p IH]; intros s; simpl; [reflexivity|].
  rewrite IH. reflexivity.
Qed.

(** [stopPreview] written out. *)
Lemma stopPreview_unfold (s : State) :
  stopPreview s =
  match audioRef s with
  | None => s
  | Some a =>
      set_isPlaying false
        (set_audioRef (Some (Audio.set_currentTime 0 (Audio.pause a))) s)
  end.
Proof. destruct s as [? ? ? ? [a|] ? ? ? ? ? ? ? ? ? ? ? ? ?]; reflexivity. Qed.

Lemma goToNext_unfold (s : State) :
  goToNext s =
  if currentIndex s <? js_length (albums s) - 1 then
    schedule_autoplay
      (set_currentIndex (currentIndex (stopPreview s) + 1) (stopPreview s))
  else s.
Proof.
  unfold goToNext, goToNext_prog.
  destruct (currentIndex s <? js_length (albums s) - 1); [|reflexivity].
  rewrite run_app. reflexivity.
Qed.

Lemma goToPrev_unfold (s : State) :
  goToPrev s =
  if 0 <? currentIndex s then
    schedule_autoplay
      (set_currentIndex (currentIndex (stopPreview s) - 1) (stopPreview s))
  else s.
Proof.
  unfold goToPrev, goToPrev_prog.
  destruct (0 <? currentIndex s); [|reflexivity].
  rewrite run_app. reflexivity.
Qed.

(** What [stopPreview] leaves alone. *)
Lemma stopPreview_frame (s : State) :
  let s' := stopPreview s in
  albums s' = albums s /\ currentIndex s' = currentIndex s /\
  isLoading s' = isLoading s /\ error s' = error s /\
  isDragging s' = isDragging s /\ dragStartX s' = dragStartX s /\
  dragOffset s' = dragOffset s /\ hasInteracted s' = hasInteracted s /\
  genres s' = genres s /\ selectedGenres s' = selectedGenres s /\
  showGenreFilter s' = showGenreFilter s /\
  showOnlyAlbums s' = showOnlyAlbums s /\ timers s' = timers s /\
  requests s' = requests s /\ console s' = console s /\
  listening s' = listening s.
Proof.
  rewrite stopPreview_unfold. destruct (audioRef s); simpl; repeat split.
Qed.

Lemma stopPreview_albums s : albums (stopPreview s) = albums s.
Proof. apply stopPreview_frame. Qed.
Lemma stopPreview_currentIndex s :
  currentIndex (stopPreview s) = currentIndex s.
Proof. apply stopPreview_frame. Qed.
Lemma stopPreview_hasInteracted s :
  hasInteracted (stopPreview s) = hasInteracted s.
Proof. apply stopPreview_frame. Qed.
Lemma stopPreview_selectedGenres s :
  selectedGenres (stopPreview s) = selectedGenres s.
Proof. apply stopPreview_frame. Qed.
Lemma stopPreview_timers s : timers (stopPreview s) = timers s.
Proof. apply stopPreview_frame. Qed.
Lemma stopPreview_requests s : requests (stopPreview s) = requests s.
Proof. apply stopPreview_frame. Qed.
Lemma stopPreview_showOnlyAlbums s :
  showOnlyAlbums (stopPreview s) = showOnlyAlbums s.
Proof. apply stopPreview_frame. Qed.

Lemma stopPreview_audioRef_is_Some s :
  is_Some (audioRef (stopPreview s)) <-> is_Some (audioRef s).
Proof.
  rewrite stopPreview_unfold. destruct (audioRef s) eqn:E; simpl.
  - split; eauto.
  - rewrite E. reflexivity.
Qed.

Lemma schedule_autoplay_frame (s : State) :
  let s' := schedule_autoplay s in
  albums s' = albums s /\ currentIndex s' = currentIndex s /\
  audioRef s' = audioRef s /\ isPlaying s' = isPlaying s /\
  selectedGenres s' = selectedGenres s /\ requests s' = requests s /\
  hasInteracted s' = hasInteracted s.
Proof.
  unfold schedule_autoplay. destruct (hasInteracted s) eqn:E; simpl;
    rewrite ?E; repeat split.
Qed.


(** ** Discrete navigation *)

(** C2. With [n] albums held and the index at [i]: [goToNext] sets the
    index to [i + 1] when [i < n - 1] and changes nothing at all when
    [i = n - 1]; [goToPrev] sets the index to [i - 1] when [i > 0] and
    changes nothing at all when [i = 0]. *)
Theorem goToNext_goToPrev_index (s : State) (n i : Z) :
  js_length (albums s) = n ->
  currentIndex s = i ->
  (i < n - 1 -> currentIndex (goToNext s) = i + 1) /\
  (i = n - 1 -> goToNext s = s) /\
  (0 < i -> currentIndex (goToPrev s) = i - 1) /\
  (i = 0 -> goToPrev s = s).
Proof.
  intros Hn Hi. rewrite goToNext_unfold, goToPrev_unfold, Hn, Hi.
  repeat split; intros H.
  - destruct (Z.ltb_spec i (n - 1)); [|lia].
    destruct (schedule_autoplay_frame
      (set_currentIndex (currentIndex (stopPreview s) + 1) (stopPreview s)))
      as (_ & -> & _).
    simpl. rewrite stopPreview_currentIndex. lia.
  - destruct (Z.ltb_spec i (n - 1)); [lia|reflexivity].
  - destruct (Z.ltb_spec 0 i); [|lia].
    destruct (schedule_autoplay_frame
      (set_currentIndex (currentIndex (stopPreview s) - 1) (stopPreview s)))
      as (_ & -> & _).
    simpl. rewrite stopPreview_currentIndex. lia.
  - destruct (Z.ltb_spec 0 i); [lia|reflexivity].
Qed.

Lemma goToNext_goToPrev_index_witness :
  currentIndex (goToNext loaded) = 1 /\
  goToNext (goToNext loaded) = goToNext loaded /\
  currentIndex (goToPrev (goToNext loaded)) = 0 /\
  goToPrev loaded = loaded.
Proof.
  destruct (goToNext_goToPrev_index loaded 2 0 eq_refl eq_refl)
    as (Hn & _ & _ & Hp0).
  destruct (goToNext_goToPrev_index (goToNext loaded) 2 1 eq_refl eq_refl)
    as (_ & Hlast & Hp & _).
  split; [apply Hn; lia|].
  split; [apply Hlast; lia|].
  split; [apply Hp; lia|apply Hp0; reflexivity].
Defined.

(** ** Preview playback *)

Lemma stopPreview_Stopped (s : State) :
  playing_bound s -> Stopped (stopPreview s).
Proof.
  unfold playing_bound, Stopped. intros H. rewrite stopPreview_unfold.
  destruct (audioRef s) as [a|] eqn:E; simpl.
  - auto.
  - rewrite E. split; [|exact I].
    destruct (isPlaying s); [|reflexivity].
    destruct (H eq_refl) as [? ?]; discriminate.
Qed.

Lemma Stopped_stopPreview (s : State) : Stopped s -> stopPreview s = s.
Proof.
  unfold Stopped. rewrite stopPreview_unfold.
  destruct s as [? ? ? ? [[? ? ? ? ?]|] ? ? ? ? ? ? ? ? ? ? ? ? ?]; simpl;
    [|reflexivity].
  intros (-> & -> & ->). reflexivity.
Qed.

(** C9. [stopPreview] is idempotent.  Called on a state that is already
    stopped, or with no audio element bound, it changes nothing; with an
    element bound it leaves the element paused at position zero and the
    playing flag down, and a second call changes nothing more. *)
Theorem stopPreview_idempotent (s : State) :
  stopPreview (stopPreview s) = stopPreview s /\
  (Stopped s -> stopPreview s = s) /\
  (audioRef s = None -> stopPreview s = s) /\
  (is_Some (audioRef s) -> Stopped (stopPreview s)) /\
  (playing_bound s -> Stopped (stopPreview s)).
Proof.
  split; [|split; [|split; [|split]]].
  - rewrite !stopPreview_unfold.
    destruct s as [? ? ? ? [a|] ? ? ? ? ? ? ? ? ? ? ? ? ?]; reflexivity.
  - apply Stopped_stopPreview.
  - intros E. rewrite stopPreview_unfold, E. reflexivity.
  - intros H. apply stopPreview_Stopped. intros _. exact H.
  - apply stopPreview_Stopped.
Qed.

Lemma stopPreview_idempotent_witness :
  stopPreview setup = setup /\
  Stopped (stopPreview (playPreview loaded)) /\
  stopPreview (stopPreview (playPreview loaded)) =
    stopPreview (playPreview loaded) /\
  stopPreview loaded = loaded.
Proof.
  destruct (stopPreview_idempotent setup) as (_ & _ & Hnone & _).
  destruct (stopPreview_idempotent (playPreview loaded))
    as (Hidem & _ & _ & Hsome & _).
  destruct (stopPreview_idempotent loaded) as (_ & Hstopped & _).
  split; [apply Hnone; reflexivity|].
  split; [apply Hsome; simpl; eauto|].
  split; [exact Hidem|].
  apply Hstopped. vm_compute. auto.
Defined.

Lemma goToNext_no_autoplay (s : State) :
  hasInteracted s = false ->
  timers (goToNext s) = timers s /\ hasInteracted (goToNext s) = false.
Proof.
  intros H. rewrite goToNext_unfold.
  destruct (currentIndex s <? js_length (albums s) - 1); [|auto].
  unfold schedule_autoplay. simpl. rewrite stopPreview_hasInteracted, H.
  simpl. rewrite stopPreview_hasInteracted, stopPreview_timers. auto.
Qed.

Lemma goToPrev_no_autoplay (s : State) :
  hasInteracted s = false ->
  timers (goToPrev s) = timers s /\ hasInteracted (goToPrev s) = false.
Proof.
  intros H. rewrite goToPrev_unfold.
  destruct (0 <? currentIndex s); [|auto].
  unfold schedule_autoplay. simpl. rewrite stopPreview_hasInteracted, H.
  simpl. rewrite stopPreview_hasInteracted, stopPreview_timers. auto.
Qed.

Lemma handleDragEnd_no_autoplay (s : State) :
  hasInteracted s = false ->
  timers (handleDragEnd s) = timers s /\
  hasInteracted (handleDragEnd s) = false.
Proof.
  intros H. unfold handleDragEnd.
  destruct (isDragging s); simpl; [|auto].
  destruct (80 <? dragOffset s); simpl.
  - apply (goToPrev_no_autoplay (set_isDragging false s) H).
  - destruct (dragOffset s <? _); simpl; [|auto].
    apply (goToNext_no_autoplay (set_isDragging false s) H).
Qed.

Lemma navigation_no_autoplay (evs : list Event) (s : State) :
  forallb is_navigation evs = true ->
  hasInteracted s = false ->
  timers (run_events evs s) = timers s /\
  hasInteracted (run_events evs s) = false.
Proof.
  revert s. induction evs as [|ev evs IH]; intros s Hnav H; [auto|].
  simpl in Hnav. apply andb_prop in Hnav as [Hev Hnav].
  assert (timers (step s ev) = timers s /\ hasInteracted (step s ev) = false)
    as [Ht Hh].
  { destruct ev; simpl in Hev; try discriminate; simpl.
    - apply goToPrev_no_autoplay, H.
    - apply goToNext_no_autoplay, H.
    - destruct (listening s); [|auto]. unfold handleKeydown.
      destruct (String.eqb key "ArrowRight");
        [apply goToNext_no_autoplay, H|].
      destruct (String.eqb key "ArrowLeft");
        [apply goToPrev_no_autoplay, H|discriminate].
    - apply handleDragEnd_no_autoplay, H. }
  destruct (IH (step s ev) Hnav Hh) as [IHt IHh].
  unfold run_events in *. simpl. rewrite IHt, Ht. auto.
Qed.

Lemma js_index_nil {A} (i : Z) : js_index (@nil A) i = None.
Proof. unfold js_index. destruct (i <? 0); reflexivity. Qed.

(** C10. [playPreview] does nothing when there is no album at
    [currentIndex] (in particular when the crate is empty) or when no audio
    element is bound: the state is unchanged, so [isPlaying] and
    [hasInteracted] keep their values, and if [hasInteracted] was not set,
    no later navigation schedules a deferred autoplay. *)
Theorem playPreview_noop (s : State) :
  albums s = [] \/ currentAlbum s = None \/ audioRef s = None ->
  playPreview s = s /\
  isPlaying (playPreview s) = isPlaying s /\
  hasInteracted (playPreview s) = hasInteracted s /\
  (hasInteracted s = false ->
   forall evs, forallb is_navigation evs = true ->
     timers (run_events evs (playPreview s)) = timers s /\
     hasInteracted (run_events evs (playPreview s)) = false).
Proof.
  intros H.
  assert (playPreview s = s) as E.
  { unfold playPreview, playPreview_prog.
    destruct H as [H|[H|H]].
    - unfold currentAlbum. rewrite H, js_index_nil. reflexivity.
    - rewrite H. reflexivity.
    - rewrite H. destruct (currentAlbum s); reflexivity. }
  rewrite E. repeat split; try reflexivity.
  - apply navigation_no_autoplay; assumption.
  - apply navigation_no_autoplay; assumption.
Qed.

Lemma playPreview_noop_witness :
  playPreview (mount (Audio.fresh false)) = mount (Audio.fresh false) /\
  timers
    (run_events [EvClickNext; EvKeydown "ArrowLeft"; EvDragEnd]
       (playPreview (set_audioRef None loaded))) = [].
Proof.
  split.
  - apply (playPreview_noop (mount (Audio.fresh false))).
    left. reflexivity.
  - apply (playPreview_noop (set_audioRef None loaded));
      [right; right; reflexivity | reflexivity | reflexivity].
Defined.

(** ** Drag gesture *)

Lemma stopPreview_set_isDragging b s :
  stopPreview (set_isDragging b s) = set_isDragging b (stopPreview s).
Proof.
  rewrite !stopPreview_unfold. simpl. destruct (audioRef s); reflexivity.
Qed.

Lemma goToPrev_set_isDragging b s :
  goToPrev (set_isDragging b s) = set_isDragging b (goToPrev s).
Proof.
  rewrite !goToPrev_unfold. simpl.
  destruct (0 <? currentIndex s); [|reflexivity].
  rewrite stopPreview_set_isDragging. unfold schedule_autoplay. simpl.
  destruct (hasInteracted (stopPreview s)); reflexivity.
Qed.

Lemma goToNext_set_isDragging b s :
  goToNext (set_isDragging b s) = set_isDragging b (goToNext s).
Proof.
  rewrite !goToNext_unfold. simpl.
  destruct (currentIndex s <? js_length (albums s) - 1); [|reflexivity].
  rewrite stopPreview_set_isDragging. unfold schedule_autoplay. simpl.
  destruct (hasInteracted (stopPreview s)); reflexivity.
Qed.

(** C6. Releasing a drag whose recorded offset is [off]: the result is that
    of [goToPrev] when [off > 80], that of [goToNext] when [off < -80], and
    the state itself otherwise (so also at exactly 80 and -80), each time
    with the gesture back to [{dragging: false, offset: 0}]. *)
Theorem handleDragEnd_threshold (s : State) :
  isDragging s = true ->
  (80 < dragOffset s -> handleDragEnd s = reset_gesture (goToPrev s)) /\
  (dragOffset s < -80 -> handleDragEnd s = reset_gesture (goToNext s)) /\
  (-80 <= dragOffset s <= 80 -> handleDragEnd s = reset_gesture s) /\
  isDragging (handleDragEnd s) = false /\
  dragOffset (handleDragEnd s) = 0.
Proof.
  intros Hd. unfold handleDragEnd, reset_gesture. rewrite Hd. simpl.
  change (- (80)) with (-80).
  rewrite goToPrev_set_isDragging, goToNext_set_isDragging.
  destruct (Z.ltb_spec 80 (dragOffset s));
    [|destruct (Z.ltb_spec (dragOffset s) (-80))];
    (split; [intros ?; first [reflexivity | lia]|]);
    (split; [intros ?; first [reflexivity | lia]|]);
    (split; [intros ?; first [reflexivity | lia]|]);
    split; reflexivity.
Qed.

Lemma handleDragEnd_threshold_witness :
  currentIndex (drag_release 200 245 loaded) = 0 /\
  isDragging (drag_release 200 245 loaded) = false /\
  dragOffset (drag_release 200 245 loaded) = 0 /\
  currentIndex (drag_release 200 50 loaded) = 1 /\
  currentIndex (drag_release 200 280 loaded) = 0 /\
  currentIndex (drag_release 200 120 loaded) = 0 /\
  currentIndex (drag_release 200 300 (goToNext loaded)) = 0.
Proof.
  pose (dragging x s :=
    run_events [EvDragStart (MouseEvent 200); EvDragMove (MouseEvent x)] s).
  destruct (handleDragEnd_threshold (dragging 245 loaded) eq_refl)
    as (_ & _ & H45 & Hd & Ho).
  destruct (handleDragEnd_threshold (dragging 50 loaded) eq_refl)
    as (_ & Hnext & _).
  destruct (handleDragEnd_threshold (dragging 280 loaded) eq_refl)
    as (_ & _ & H80 & _).
  destruct (handleDragEnd_threshold (dragging 120 loaded) eq_refl)
    as (_ & _ & Hm80 & _).
  destruct (handleDragEnd_threshold (dragging 300 (goToNext loaded)) eq_refl)
    as (Hprev & _).
  change (drag_release 200 245 loaded)
    with (handleDragEnd (dragging 245 loaded)).
  split; [rewrite H45 by (vm_compute; split; discriminate); reflexivity|].
  split; [exact Hd|]. split; [exact Ho|].
  change (drag_release 200 50 loaded)
    with (handleDragEnd (dragging 50 loaded)).
  split; [rewrite Hnext by reflexivity; reflexivity|].
  change (drag_release 200 280 loaded)
    with (handleDragEnd (dragging 280 loaded)).
  split; [rewrite H80 by (vm_compute; split; discriminate); reflexivity|].
  change (drag_release 200 120 loaded)
    with (handleDragEnd (dragging 120 loaded)).
  split; [rewrite Hm80 by (vm_compute; split; discriminate); reflexivity|].
  change (drag_release 200 300 (goToNext loaded))
    with (handleDragEnd (dragging 300 (goToNext loaded))).
  rewrite Hprev by reflexivity. reflexivity.
Defined.

(** ** The index stays inside the crate *)

Lemma same_crate_index_inv s s' :
  same_crate s s' -> index_inv s -> index_inv s'.
Proof. unfold same_crate, index_inv. intros [-> ->]. auto. Qed.

Lemma same_crate_refl s : same_crate s s.
Proof. split; reflexivity. Qed.

Lemma stopPreview_same_crate s : same_crate s (stopPreview s).
Proof. split; apply stopPreview_frame. Qed.

Lemma playPreview_same_crate s : same_crate s (playPreview s).
Proof.
  unfold playPreview, playPreview_prog.
  destruct (currentAlbum s), (audioRef s); split; reflexivity.
Qed.

Lemma toggleGenre_same_crate g s : same_crate s (toggleGenre g s).
Proof.
  unfold toggleGenre.
  destruct (indexOf g (selectedGenres (stopPreview s)) =? -1); simpl;
    apply stopPreview_same_crate.
Qed.

Lemma loadAlbums_begin_same_crate s : same_crate s (loadAlbums_begin s).
Proof. unfold loadAlbums_begin. simpl. apply stopPreview_same_crate. Qed.

Lemma handleDragStart_same_crate e s : same_crate s (handleDragStart e s).
Proof. split; reflexivity. Qed.

Lemma handleDragMove_same_crate e s : same_crate s (handleDragMove e s).
Proof.
  unfold handleDragMove. destruct (isDragging s); split; reflexivity.
Qed.

Lemma goToNext_index_inv s : index_inv s -> index_inv (goToNext s).
Proof.
  unfold index_inv. rewrite goToNext_unfold.
  destruct (Z.ltb_spec (currentIndex s) (js_length (albums s) - 1)) as [Hlt|];
    [|auto].
  destruct (schedule_autoplay_frame
    (set_currentIndex (currentIndex (stopPreview s) + 1) (stopPreview s)))
    as (-> & -> & _).
  simpl. rewrite stopPreview_albums, stopPreview_currentIndex.
  intros H Hne. specialize (H Hne). lia.
Qed.

Lemma goToPrev_index_inv s : index_inv s -> index_inv (goToPrev s).
Proof.
  unfold index_inv. rewrite goToPrev_unfold.
  destruct (Z.ltb_spec 0 (currentIndex s)) as [Hlt|]; [|auto].
  destruct (schedule_autoplay_frame
    (set_currentIndex (currentIndex (stopPreview s) - 1) (stopPreview s)))
    as (-> & -> & _).
  simpl. rewrite stopPreview_albums, stopPreview_currentIndex.
  intros H Hne. specialize (H Hne). lia.
Qed.

Lemma handleDragEnd_index_inv s : index_inv s -> index_inv (handleDragEnd s).
Proof.
  intros H. unfold handleDragEnd. destruct (isDragging s); simpl; [|exact H].
  assert (index_inv (set_isDragging false s)) as H' by exact H.
  destruct (80 <? dragOffset s).
  - apply (goToPrev_index_inv _ H').
  - destruct (dragOffset s <? _); [apply (goToNext_index_inv _ H')|exact H'].
Qed.

Lemma js_length_pos_iff {A} (l : list A) : 0 < js_length l <-> l <> [].
Proof.
  unfold js_length. destruct l; simpl; split; try congruence; try lia.
Qed.

Lemma loadAlbums_resume_index_inv r s :
  index_inv s -> index_inv (loadAlbums_resume r s).
Proof.
  intros H. destruct r as [data|e]; unfold loadAlbums_resume, index_inv; simpl.
  - intros Hne. apply js_length_pos_iff in Hne. lia.
  - exact H.
Qed.

Lemma handleKeydown_index_inv key s :
  index_inv s -> index_inv (handleKeydown key s).
Proof.
  intros H. unfold handleKeydown.
  destruct (String.eqb key "ArrowRight"); [apply goToNext_index_inv, H|].
  destruct (String.eqb key "ArrowLeft"); [apply goToPrev_index_inv, H|].
  destruct (String.eqb key " "); [|exact H].
  destruct (isPlaying s).
  - apply (same_crate_index_inv s); [apply stopPreview_same_crate|exact H].
  - apply (same_crate_index_inv s); [apply playPreview_same_crate|exact H].
Qed.

Lemma step_index_inv s ev : index_inv s -> index_inv (step s ev).
Proof.
  intros H. destruct ev; simpl.
  - apply goToPrev_index_inv, H.
  - apply goToNext_index_inv, H.
  - destruct (isPlaying s).
    + apply (same_crate_index_inv s); [apply stopPreview_same_crate|exact H].
    + apply (same_crate_index_inv s); [apply playPreview_same_crate|exact H].
  - destruct (listening s); [apply handleKeydown_index_inv, H|exact H].
  - destruct (audioRef s); exact H.
  - exact H.
  - apply (same_crate_index_inv s); [apply handleDragMove_same_crate|exact H].
  - apply handleDragEnd_index_inv, H.
  - apply (same_crate_index_inv s); [apply loadAlbums_begin_same_crate|exact H].
  - apply (same_crate_index_inv (set_showOnlyAlbums albumsOnly s));
      [apply loadAlbums_begin_same_crate|exact H].
  - exact H.
  - exact H.
  - apply (same_crate_index_inv s); [apply toggleGenre_same_crate|exact H].
  - destruct (timers s !! k) as [[[] d]|]; [|exact H]. simpl.
    apply (same_crate_index_inv (set_timers (delete k (timers s)) s));
      [apply playPreview_same_crate|exact H].
  - destruct (requests s !! k) as [[|c g m]|]; try exact H.
    apply loadAlbums_resume_index_inv. exact H.
  - destruct (requests s !! k) as [[|c g m]|]; try exact H.
    destruct (fetchGenres_settle r); exact H.
Qed.

(** C1. Every operation keeps the index inside a non-empty crate: if
    [0 <= currentIndex < albums.length] holds whenever the crate is
    non-empty, it still does after any event of the component, and in
    particular after [goToNext], [goToPrev], [handleDragEnd] and both parts
    of [loadAlbums], whether the request succeeded or failed. *)
Theorem index_inv_preserved (s : State) :
  index_inv s ->
  (forall ev, index_inv (step s ev)) /\
  index_inv (goToNext s) /\
  index_inv (goToPrev s) /\
  index_inv (handleDragEnd s) /\
  index_inv (loadAlbums_begin s) /\
  (forall r, index_inv (loadAlbums_resume (fetchRandomAlbums_settle r) s)).
Proof.
  intros H. split; [intros ev; apply step_index_inv, H|].
  split; [apply goToNext_index_inv, H|].
  split; [apply goToPrev_index_inv, H|].
  split; [apply handleDragEnd_index_inv, H|].
  split.
  - apply (same_crate_index_inv s); [apply loadAlbums_begin_same_crate|exact H].
  - intros r. apply loadAlbums_resume_index_inv, H.
Qed.

Lemma index_inv_preserved_witness :
  index_inv loaded /\
  index_inv (goToNext loaded) /\
  index_inv (step (goToNext loaded) EvClickNext) /\
  index_inv
    (loadAlbums_resume (fetchRandomAlbums_settle NetworkError)
       (loadAlbums_begin (goToNext loaded))).
Proof.
  assert (index_inv loaded) as H0.
  { intros _. vm_compute. split; [discriminate|reflexivity]. }
  split; [exact H0|].
  destruct (index_inv_preserved loaded H0) as (_ & Hn & _).
  split; [exact Hn|].
  destruct (index_inv_preserved (goToNext loaded) Hn) as (Hstep & _ & _ & _ & Hb & _).
  split; [apply Hstep|].
  destruct (index_inv_preserved _ Hb) as (_ & _ & _ & _ & _ & Hr).
  apply Hr.
Defined.

(** The invariant holds throughout the life of the mounted component. *)
Lemma reachable_index_inv s : reachable s -> index_inv s.
Proof.
  induction 1 as [a|s ev _ IH].
  - intros Hne. exfalso. apply Hne. reflexivity.
  - apply step_index_inv, IH.
Qed.

(** ** The audio element stays bound while the component is mounted *)

Lemma playPreview_audio_bound s : audio_bound s -> audio_bound (playPreview s).
Proof.
  unfold audio_bound, playPreview, playPreview_prog. intros [a Ha].
  rewrite Ha. destruct (currentAlbum s); simpl; rewrite ?Ha; simpl; eauto.
Qed.

Lemma stopPreview_audio_bound s : audio_bound s -> audio_bound (stopPreview s).
Proof. apply stopPreview_audioRef_is_Some. Qed.

Lemma schedule_autoplay_audio_bound s :
  audio_bound s -> audio_bound (schedule_autoplay s).
Proof.
  unfold audio_bound.
  destruct (schedule_autoplay_frame s) as (_ & _ & -> & _). auto.
Qed.

Lemma goToNext_audio_bound s : audio_bound s -> audio_bound (goToNext s).
Proof.
  intros H. rewrite goToNext_unfold.
  destruct (currentIndex s <? js_length (albums s) - 1); [|exact H].
  apply schedule_autoplay_audio_bound.
  apply (stopPreview_audio_bound s H).
Qed.

Lemma goToPrev_audio_bound s : audio_bound s -> audio_bound (goToPrev s).
Proof.
  intros H. rewrite goToPrev_unfold.
  destruct (0 <? currentIndex s); [|exact H].
  apply schedule_autoplay_audio_bound.
  apply (stopPreview_audio_bound s H).
Qed.

Lemma loadAlbums_begin_audio_bound s :
  audio_bound s -> audio_bound (loadAlbums_begin s).
Proof. intros H. apply (stopPreview_audio_bound s H). Qed.

Lemma step_audio_bound s ev : audio_bound s -> audio_bound (step s ev).
Proof.
  intros H. destruct ev; simpl.
  - apply goToPrev_audio_bound, H.
  - apply goToNext_audio_bound, H.
  - destruct (isPlaying s);
      [apply stopPreview_audio_bound, H|apply playPreview_audio_bound, H].
  - destruct (listening s); [|exact H]. unfold handleKeydown.
    destruct (String.eqb key "ArrowRight"); [apply goToNext_audio_bound, H|].
    destruct (String.eqb key "ArrowLeft"); [apply goToPrev_audio_bound, H|].
    destruct (String.eqb key " "); [|exact H].
    destruct (isPlaying s);
      [apply stopPreview_audio_bound, H|apply playPreview_audio_bound, H].
  - destruct H as [a Ha]. unfold audio_bound. rewrite Ha. simpl.
    rewrite Ha. simpl. eauto.
  - exact H.
  - unfold handleDragMove. destruct (isDragging s); exact H.
  - unfold handleDragEnd. destruct (isDragging s); simpl; [|exact H].
    destruct (80 <? dragOffset s);
      [apply (goToPrev_audio_bound (set_isDragging false s) H)|].
    destruct (dragOffset s <? _);
      [apply (goToNext_audio_bound (set_isDragging false s) H)|exact H].
  - apply loadAlbums_begin_audio_bound, H.
  - apply (loadAlbums_begin_audio_bound (set_showOnlyAlbums albumsOnly s) H).
  - exact H.
  - exact H.
  - unfold toggleGenre.
    destruct (indexOf genreId (selectedGenres (stopPreview s)) =? -1);
      apply (stopPreview_audio_bound s H).
  - destruct (timers s !! k) as [[[] d]|]; [|exact H]. simpl.
    apply (playPreview_audio_bound (set_timers (delete k (timers s)) s) H).
  - destruct (requests s !! k) as [[|c g m]|]; try exact H.
    destruct (fetchRandomAlbums_settle r); exact H.
  - destruct (requests s !! k) as [[|c g m]|]; try exact H.
    destruct (fetchGenres_settle r); exact H.
Qed.

Lemma reachable_audio_bound s : reachable s -> audio_bound s.
Proof.
  induction 1 as [a|s ev _ IH].
  - exists (Audio.set_currentTime 0 (Audio.pause a)). reflexivity.
  - apply step_audio_bound, IH.
Qed.

Lemma reachable_run_events evs s : reachable s -> reachable (run_events evs s).
Proof.
  revert s. induction evs as [|ev evs IH]; intros s H; [exact H|].
  apply (IH (step s ev)). apply reachable_step, H.
Qed.

(** ** Stop before move *)

Lemma trace_navigation_Stopped (s s' : State) (d : Z) :
  audio_bound s ->
  In s'
    (trace
       (stopPreview_prog s ++
        [ (fun s => set_currentIndex (currentIndex s + d) s);
          schedule_autoplay ]) s) ->
  currentIndex s' <> currentIndex s -> Stopped s'.
Proof.
  intros [a Ha] Hin Hne. unfold stopPreview_prog in Hin. rewrite Ha in Hin.
  destruct s as [? ? ? ? au ? ? ? ? hi ? ? ? ? ? ? ? ?].
  simpl in Ha. subst au. simpl in Hin, Hne.
  destruct Hin as [<-|[<-|[<-|[<-|[<-|[]]]]]]; simpl in Hne;
    try (exfalso; apply Hne; reflexivity).
  - split; simpl; auto.
  - unfold schedule_autoplay. simpl. destruct hi; split; simpl; auto.
Qed.

(** C3. In any state of the mounted component, running [goToNext] or
    [goToPrev] statement by statement, every state in which the index
    differs from the one before the call already has playback stopped
    (flag down, element paused at position zero): the three statements of
    [stopPreview] come first, the index assignment after them. *)
Theorem stop_before_index_change (s : State) :
  reachable s ->
  (forall s', In s' (trace (goToNext_prog s) s) ->
     currentIndex s' <> currentIndex s -> Stopped s') /\
  (forall s', In s' (trace (goToPrev_prog s) s) ->
     currentIndex s' <> currentIndex s -> Stopped s') /\
  (currentIndex (goToNext s) <> currentIndex s ->
   trace (goToNext_prog s) s =
     trace (stopPreview_prog s) s ++
     [set_currentIndex (currentIndex s + 1) (stopPreview s); goToNext s]) /\
  (currentIndex (goToPrev s) <> currentIndex s ->
   trace (goToPrev_prog s) s =
     trace (stopPreview_prog s) s ++
     [set_currentIndex (currentIndex s - 1) (stopPreview s); goToPrev s]).
Proof.
  intros Hr. apply reachable_audio_bound in Hr.
  split; [|split; [|split]].
  - intros s'. unfold goToNext_prog.
    destruct (currentIndex s <? js_length (albums s) - 1); [|intros []].
    apply trace_navigation_Stopped, Hr.
  - intros s'. unfold goToPrev_prog.
    destruct (0 <? currentIndex s); [|intros []].
    apply (trace_navigation_Stopped s s' (-1) Hr).
  - rewrite goToNext_unfold. unfold goToNext_prog.
    destruct (currentIndex s <? js_length (albums s) - 1);
      [|intros H; exfalso; apply H; reflexivity].
    intros _. rewrite trace_app. simpl.
    rewrite <- (stopPreview_currentIndex s). reflexivity.
  - rewrite goToPrev_unfold. unfold goToPrev_prog.
    destruct (0 <? currentIndex s);
      [|intros H; exfalso; apply H; reflexivity].
    intros _. rewrite trace_app. simpl.
    rewrite <- (stopPreview_currentIndex s). reflexivity.
Qed.

Lemma stop_before_index_change_witness :
  reachable playing /\
  isPlaying playing = true /\
  currentIndex (goToNext playing) = 1 /\
  Stopped (goToNext playing).
Proof.
  assert (reachable playing) as Hr.
  { apply reachable_step. apply reachable_run_events. apply reachable_mount. }
  split; [exact Hr|]. split; [reflexivity|]. split; [reflexivity|].
  destruct (stop_before_index_change playing Hr) as (Hn & _).
  apply Hn.
  - vm_compute. do 4 right. left. reflexivity.
  - vm_compute. discriminate.
Defined.

(** ** Genre selection *)

Lemma toggleGenre_selectedGenres g s :
  selectedGenres (toggleGenre g s) = toggle_selected g (selectedGenres s).
Proof.
  unfold toggleGenre, toggle_selected. rewrite stopPreview_selectedGenres.
  destruct (indexOf g (selectedGenres s) =? -1); reflexivity.
Qed.

Lemma indexOf_lower x l : -1 <= indexOf x l.
Proof.
  induction l as [|y l IH]; simpl; [lia|].
  destruct (x =? y); [lia|]. destruct (Z.eqb_spec (indexOf x l) (-1)); lia.
Qed.

Lemma indexOf_absent x l : x ∉ l -> indexOf x l = -1.
Proof.
  induction l as [|y l IH]; intros H; simpl; [reflexivity|].
  apply not_elem_of_cons in H as [Hne Hl].
  destruct (Z.eqb_spec x y); [contradiction|].
  rewrite (IH Hl). reflexivity.
Qed.

Lemma indexOf_present x l :
  x ∈ l -> exists i : nat, indexOf x l = Z.of_nat i /\ l !! i = Some x.
Proof.
  induction l as [|y l IH]; intros H; [inversion H|]. simpl.
  destruct (Z.eqb_spec x y) as [->|Hne].
  - exists 0%nat. auto.
  - apply elem_of_cons in H as [?|Hl]; [contradiction|].
    destruct (IH Hl) as (i & Hi & Hlook). exists (S i). rewrite Hi.
    destruct (Z.eqb_spec (Z.of_nat i) (-1)); [lia|]. split; [lia|exact Hlook].
Qed.

Lemma toggle_selected_absent x l :
  x ∉ l -> toggle_selected x l = l ++ [x].
Proof.
  intros H. unfold toggle_selected. rewrite (indexOf_absent x l H).
  reflexivity.
Qed.

Lemma toggle_selected_present x l :
  x ∈ l -> exists i : nat, l !! i = Some x /\ toggle_selected x l = delete i l.
Proof.
  intros H. destruct (indexOf_present x l H) as (i & Hi & Hlook).
  exists i. split; [exact Hlook|]. unfold toggle_selected, splice1.
  rewrite Hi. destruct (Z.eqb_spec (Z.of_nat i) (-1)); [lia|].
  rewrite Nat2Z.id. reflexivity.
Qed.

Lemma toggle_selected_NoDup x l : NoDup l -> NoDup (toggle_selected x l).
Proof.
  intros Hnd. destruct (decide (x ∈ l)) as [Hin|Hnin].
  - destruct (toggle_selected_present x l Hin) as (i & Hlook & ->).
    apply (NoDup_Permutation_proper _ _ (delete_Permutation l i x Hlook)) in Hnd.
    apply NoDup_cons in Hnd. apply Hnd.
  - rewrite (toggle_selected_absent x l Hnin).
    apply NoDup_app. split; [exact Hnd|]. split; [|apply NoDup_singleton].
    intros y Hy Hy'. apply list_elem_of_singleton in Hy'. subst y. contradiction.
Qed.

Lemma toggle_selected_twice x l :
  NoDup l -> toggle_selected x (toggle_selected x l) ≡ₚ l.
Proof.
  intros Hnd. destruct (decide (x ∈ l)) as [Hin|Hnin].
  - destruct (toggle_selected_present x l Hin) as (i & Hlook & ->).
    pose proof (delete_Permutation l i x Hlook) as Hp.
    apply (NoDup_Permutation_proper _ _ Hp) in Hnd.
    apply NoDup_cons in Hnd as [Hnin _].
    rewrite (toggle_selected_absent x _ Hnin).
    transitivity (x :: delete i l).
    + symmetry. apply Permutation_cons_append.
    + symmetry. exact Hp.
  - rewrite (toggle_selected_absent x l Hnin).
    assert (x ∈ l ++ [x]) as Hin by (apply elem_of_app; right; constructor).
    destruct (indexOf_present x (l ++ [x]) Hin) as (i & Hi & Hlook).
    assert (i = length l) as ->.
    { destruct (decide (i < length l)%nat) as [Hlt|Hge].
      - rewrite lookup_app_l in Hlook by exact Hlt.
        exfalso. apply Hnin. apply list_elem_of_lookup. eauto.
      - apply lookup_lt_Some in Hlook. rewrite length_app in Hlook.
        simpl in Hlook. lia. }
    unfold toggle_selected, splice1. rewrite Hi.
    destruct (Z.eqb_spec (Z.of_nat (length l)) (-1)); [lia|].
    rewrite Nat2Z.id.
    rewrite delete_middle, app_nil_r. reflexivity.
Qed.

(** C8. Toggling the same genre twice gives back the selection one started
    from: the array holds the same ids (possibly in another order), so the
    set of selected genres is the same, for any genre id and any starting
    selection, an array without repeated ids. *)
Theorem toggleGenre_twice (s : State) (genreId : Z) :
  NoDup (selectedGenres s) ->
  let s'' := toggleGenre genreId (toggleGenre genreId s) in
  selectedGenres s'' ≡ₚ selectedGenres s /\
  (list_to_set (selectedGenres s'') : gset Z) =
    list_to_set (selectedGenres s) /\
  NoDup (selectedGenres s'').
Proof.
  intros Hnd s''. subst s''. rewrite !toggleGenre_selectedGenres.
  pose proof (toggle_selected_twice genreId _ Hnd) as Hp.
  split; [exact Hp|]. split.
  - apply leibniz_equiv. rewrite Hp. reflexivity.
  - apply toggle_selected_NoDup, toggle_selected_NoDup, Hnd.
Qed.

Lemma toggleGenre_twice_witness :
  selectedGenres jazz_rock = [129; 152] /\
  selectedGenres (toggleGenre 152 jazz_rock) = [129] /\
  selectedGenres (toggleGenre 152 (toggleGenre 152 jazz_rock)) ≡ₚ [129; 152] /\
  selectedGenres (toggleGenre 129 (toggleGenre 129 jazz_rock)) ≡ₚ [129; 152].
Proof.
  assert (NoDup (selectedGenres jazz_rock)) as Hnd.
  { vm_compute. apply NoDup_cons. split.
    - intros H. apply list_elem_of_singleton in H. discriminate.
    - apply NoDup_singleton. }
  split; [reflexivity|]. split; [reflexivity|]. split.
  - apply (toggleGenre_twice jazz_rock 152 Hnd).
  - apply (toggleGenre_twice jazz_rock 129 Hnd).
Defined.

(** The array of selected ids never holds an id twice. *)
Lemma goToNext_selectedGenres s : selectedGenres (goToNext s) = selectedGenres s.
Proof.
  rewrite goToNext_unfold.
  destruct (currentIndex s <? js_length (albums s) - 1); [|reflexivity].
  destruct (schedule_autoplay_frame
    (set_currentIndex (currentIndex (stopPreview s) + 1) (stopPreview s)))
    as (_ & _ & _ & _ & -> & _).
  simpl. apply stopPreview_selectedGenres.
Qed.

Lemma goToPrev_selectedGenres s : selectedGenres (goToPrev s) = selectedGenres s.
Proof.
  rewrite goToPrev_unfold.
  destruct (0 <? currentIndex s); [|reflexivity].
  destruct (schedule_autoplay_frame
    (set_currentIndex (currentIndex (stopPreview s) - 1) (stopPreview s)))
    as (_ & _ & _ & _ & -> & _).
  simpl. apply stopPreview_selectedGenres.
Qed.

Lemma playPreview_selectedGenres s :
  selectedGenres (playPreview s) = selectedGenres s.
Proof.
  unfold playPreview, playPreview_prog.
  destruct (currentAlbum s), (audioRef s); reflexivity.
Qed.

Lemma step_selectedGenres_NoDup s ev :
  NoDup (selectedGenres s) -> NoDup (selectedGenres (step s ev)).
Proof.
  intros H. destruct ev; simpl.
  - rewrite goToPrev_selectedGenres. exact H.
  - rewrite goToNext_selectedGenres. exact H.
  - destruct (isPlaying s);
      rewrite ?stopPreview_selectedGenres, ?playPreview_selectedGenres;
      exact H.
  - destruct (listening s); [|exact H]. unfold handleKeydown.
    destruct (String.eqb key "ArrowRight");
      [rewrite goToNext_selectedGenres; exact H|].
    destruct (String.eqb key "ArrowLeft");
      [rewrite goToPrev_selectedGenres; exact H|].
    destruct (String.eqb key " "); [|exact H].
    destruct (isPlaying s);
      rewrite ?stopPreview_selectedGenres, ?playPreview_selectedGenres;
      exact H.
  - destruct (audioRef s); exact H.
  - exact H.
  - unfold handleDragMove. destruct (isDragging s); exact H.
  - unfold handleDragEnd. destruct (isDragging s); simpl; [|exact H].
    destruct (80 <? dragOffset s);
      [rewrite goToPrev_selectedGenres; exact H|].
    destruct (dragOffset s <? _);
      [rewrite goToNext_selectedGenres; exact H|exact H].
  - unfold loadAlbums_begin. simpl. rewrite stopPreview_selectedGenres.
    exact H.
  - unfold loadAlbums_begin. simpl. rewrite stopPreview_selectedGenres.
    exact H.
  - exact H.
  - apply NoDup_nil_2.
  - rewrite toggleGenre_selectedGenres. apply toggle_selected_NoDup, H.
  - destruct (timers s !! k) as [[[] d]|]; [|exact H]. simpl.
    rewrite playPreview_selectedGenres. exact H.
  - destruct (requests s !! k) as [[|c g m]|]; try exact H.
    destruct (fetchRandomAlbums_settle r); exact H.
  - destruct (requests s !! k) as [[|c g m]|]; try exact H.
    destruct (fetchGenres_settle r); exact H.
Qed.

Lemma reachable_selectedGenres_NoDup s :
  reachable s -> NoDup (selectedGenres s).
Proof.
  induction 1 as [a|s ev _ IH].
  - apply NoDup_nil_2.
  - apply step_selectedGenres_NoDup, IH.
Qed.

(** Why the starting array must be free of repetitions, and why the result
    is the same set rather than the same array. *)
Example toggle_selected_repeated :
  toggle_selected 152 (toggle_selected 152 [152; 152]) = [].
Proof. reflexivity. Qed.

Example toggle_selected_reorders :
  toggle_selected 152 (toggle_selected 152 [152; 129]) = [129; 152].
Proof. reflexivity. Qed.

(** ** The request of [loadAlbums] *)

Lemma append_assoc (a b c : string) : (a +:+ b) +:+ c = a +:+ (b +:+ c).
Proof.
  induction a as [|x a IH]; [reflexivity|].
  change (String x ((a +:+ b) +:+ c) = String x (a +:+ (b +:+ c))).
  rewrite IH. reflexivity.
Qed.

Lemma fetchRandomAlbums_url_params base count ids m :
  fetchRandomAlbums_url base (Some count) (Some ids) m =
  base +:+ "/albums/random?" +:+
  query_string (albums_query_params count ids m).
Proof.
  unfold fetchRandomAlbums_url, albums_query_params, query_string,
    render_param.
  destruct ids as [|g ids].
  - destruct m as [m|]; [destruct (0 <? m)|]; simpl;
      rewrite ?append_assoc; reflexivity.
  - assert ((0 <? js_length (g :: ids)) = true) as ->.
    { apply Z.ltb_lt. unfold js_length. simpl length. lia. }
    destruct m as [m|]; [destruct (0 <? m)|]; simpl;
      rewrite ?append_assoc; simpl; rewrite ?append_assoc; reflexivity.
Qed.

Lemma fetchRandomAlbums_url_no_genres base count m :
  fetchRandomAlbums_url base count None m =
  fetchRandomAlbums_url base count (Some []) m.
Proof. reflexivity. Qed.

Lemma loadAlbums_url_unfold base s :
  loadAlbums_url base s =
  Some (fetchRandomAlbums_url base (Some 10) (Some (selectedGenres s))
          (if showOnlyAlbums s then Some 2 else None)).
Proof.
  unfold loadAlbums_url, loadAlbums_begin, loadAlbums_genreIds,
    loadAlbums_minTracks, push. simpl. rewrite last_snoc. simpl.
  rewrite stopPreview_selectedGenres, stopPreview_showOnlyAlbums.
  destruct (selectedGenres s) as [|g ids] eqn:E; [reflexivity|].
  assert ((0 <? js_length (g :: ids)) = true) as ->; [|reflexivity].
  apply Z.ltb_lt. unfold js_length. simpl length. lia.
Qed.

(** Membership of a key in an explicit list of keys, by evaluation. *)
Ltac decide_keys :=
  match goal with
  | |- ?P => apply (bool_decide_unpack P); vm_compute; exact I
  end.

(** C7 (as the code has it). The URL [loadAlbums] requests is the base URL,
    [/albums/random?] and the parameters [count], [genres], [min_tracks] in
    that order; [genres] is left out exactly when no genre is selected and
    lists the selected ids in the order of the array, which is the order in
    which they were selected; [min_tracks] is left out exactly when the
    albums-only switch is off, and [fetchRandomAlbums] leaves it out for
    any non-positive value.  With the array [[129, 152]] and albums-only on
    the query string is [count=10&genres=129,152&min_tracks=2]. *)
Theorem loadAlbums_query (base : string) (s : State) :
  loadAlbums_url base s =
    Some (base +:+ "/albums/random?" +:+ query_string (loadAlbums_params s)) /\
  sublist (fst <$> loadAlbums_params s) ["count"; "genres"; "min_tracks"] /\
  (selectedGenres s = [] <-> "genres" ∉ (fst <$> loadAlbums_params s)) /\
  (selectedGenres s <> [] ->
   ("genres", join_comma (selectedGenres s)) ∈ loadAlbums_params s) /\
  (showOnlyAlbums s = false <->
   "min_tracks" ∉ (fst <$> loadAlbums_params s)) /\
  (forall count ids m, m <= 0 ->
     fetchRandomAlbums_url base count ids (Some m) =
     fetchRandomAlbums_url base count ids None) /\
  (selectedGenres s = [129; 152] -> showOnlyAlbums s = true ->
   loadAlbums_url base s =
     Some (base +:+ "/albums/random?count=10&genres=129,152&min_tracks=2")).
Proof.
  rewrite loadAlbums_url_unfold, fetchRandomAlbums_url_params.
  unfold loadAlbums_params, albums_query_params.
  split; [reflexivity|]. split; [|split; [|split; [|split; [|split]]]].
  - destruct (selectedGenres s), (showOnlyAlbums s); simpl;
      repeat first [apply sublist_nil | apply sublist_skip | apply sublist_cons].
  - destruct (selectedGenres s), (showOnlyAlbums s); simpl;
      (split; [intros H; first [discriminate H | decide_keys]
              |intros H; first [reflexivity | exfalso; apply H; decide_keys]]).
  - intros Hne. destruct (selectedGenres s); [contradiction|].
    apply elem_of_cons. right. apply elem_of_cons. left. reflexivity.
  - destruct (selectedGenres s), (showOnlyAlbums s); simpl;
      (split; [intros H; first [discriminate H | decide_keys]
              |intros H; first [reflexivity | exfalso; apply H; decide_keys]]).
  - intros count ids m Hm. unfold fetchRandomAlbums_url.
    destruct (Z.ltb_spec 0 m); [lia|reflexivity].
  - intros -> ->. reflexivity.
Qed.

Lemma loadAlbums_query_witness :
  loadAlbums_url default_api_base jazz_rock_albums =
    Some "http://localhost:8000/albums/random?count=10&genres=129,152&min_tracks=2" /\
  loadAlbums_url default_api_base loaded =
    Some "http://localhost:8000/albums/random?count=10" /\
  fetchRandomAlbums_url default_api_base (Some 5) (Some [129]) (Some 0) =
    "http://localhost:8000/albums/random?count=5&genres=129".
Proof.
  destruct (loadAlbums_query default_api_base jazz_rock_albums)
    as (_ & _ & _ & _ & _ & _ & Hex).
  destruct (loadAlbums_query default_api_base loaded) as (Hurl & _).
  destruct (loadAlbums_query default_api_base loaded)
    as (_ & _ & _ & _ & _ & Hmin & _).
  split; [exact (Hex eq_refl eq_refl)|].
  split; [exact Hurl|].
  rewrite (Hmin (Some 5) (Some [129]) 0) by lia. reflexivity.
Defined.

(** C7, the claim as stated fails: with the genres 152 and 129 selected in
    that order the selected set is [{129, 152}] and albums-only is on, yet
    the query string is [count=10&genres=152,129&min_tracks=2]. *)
Lemma loadAlbums_query_set_counterexample :
  (list_to_set (selectedGenres rock_jazz_albums) : gset Z) = {[129; 152]} /\
  showOnlyAlbums rock_jazz_albums = true /\
  loadAlbums_url default_api_base rock_jazz_albums =
    Some "http://localhost:8000/albums/random?count=10&genres=152,129&min_tracks=2" /\
  loadAlbums_url default_api_base rock_jazz_albums <>
    Some "http://localhost:8000/albums/random?count=10&genres=129,152&min_tracks=2".
Proof.
  split; [|split; [|split]].
  - change (selectedGenres rock_jazz_albums) with [152; 129]. set_solver.
  - reflexivity.
  - reflexivity.
  - vm_compute. discriminate.
Qed.

(** ** Loading a crate *)

(** The ways the request of [fetchRandomAlbums] fails: the [fetch] is
    rejected, the response is not [ok], or its body does not parse. *)
Lemma fetchRandomAlbums_settle_fails (r : Fetched AlbumCollection.t) :
  (exists e, fetchRandomAlbums_settle r = inr e) <->
  r = NetworkError \/ (exists j, r = Response false j) \/ r = Response true None.
Proof.
  destruct r as [|[] [d|]]; simpl; split;
    try (intros [e He]; discriminate He); eauto;
    intros [H|[[j H]|H]]; discriminate H.
Qed.

(** C5. When the request of [loadAlbums] fails, whatever happened while it
    was pending: the albums held and the index are those from before the
    failure, the error message is set and it is the error view that is
    rendered, the failed request is gone and no new request or timer has
    been issued.  The part of [loadAlbums] before the request does not
    touch the albums or the index either, and issues exactly one request. *)
Theorem loadAlbums_failure (s : State) (k : nat)
    (r : Fetched AlbumCollection.t) (e : Err) count genreIds minTracks :
  requests s !! k = Some (ReqAlbums count genreIds minTracks) ->
  fetchRandomAlbums_settle r = inr e ->
  let s' := step s (EvAlbumsSettled k r) in
  albums s' = albums s /\
  currentIndex s' = currentIndex s /\
  error s' = Some load_error_message /\
  isLoading s' = false /\
  view s' = ViewError load_error_message /\
  requests s' = delete k (requests s) /\
  timers s' = timers s /\
  albums (loadAlbums_begin s) = albums s /\
  currentIndex (loadAlbums_begin s) = currentIndex s /\
  requests (loadAlbums_begin s) =
    requests s ++
    [ReqAlbums (Some 10) (loadAlbums_genreIds s) (loadAlbums_minTracks s)] /\
  timers (loadAlbums_begin s) = timers s.
Proof.
  intros Hk He s'. subst s'. simpl. rewrite Hk, He.
  unfold loadAlbums_resume, view. simpl.
  repeat split; try reflexivity.
  - apply loadAlbums_begin_same_crate.
  - apply loadAlbums_begin_same_crate.
  - unfold loadAlbums_begin, loadAlbums_genreIds, loadAlbums_minTracks, push.
    simpl.
    rewrite stopPreview_requests, stopPreview_selectedGenres,
      stopPreview_showOnlyAlbums. reflexivity.
  - unfold loadAlbums_begin. simpl. apply stopPreview_timers.
Qed.

Lemma loadAlbums_failure_witness :
  albums reload_failed = [album1; album2] /\
  currentIndex reload_failed = 1 /\
  view reload_failed = ViewError load_error_message /\
  requests reload_failed = [] /\
  timers reload_failed = [].
Proof.
  destruct (loadAlbums_failure reloading 0 (Response false None)
              (Error "Failed to fetch albums") (Some 10) None None
              eq_refl eq_refl)
    as (Ha & Hi & _ & _ & Hv & Hr & Ht & _).
  split; [exact Ha|]. split; [exact Hi|]. split; [exact Hv|].
  split; [exact Hr|exact Ht].
Defined.

(** When nothing happens between the call and the answer, a successful
    [loadAlbums] ends with the fetched albums, index 0 and playback
    stopped. *)
Lemma loadAlbums_success_uninterrupted (s : State) (data : AlbumCollection.t) :
  playing_bound s ->
  let s' := loadAlbums_resume (inl data) (loadAlbums_begin s) in
  albums s' = AlbumCollection.albums data /\
  currentIndex s' = 0 /\
  isLoading s' = false /\
  Stopped s'.
Proof.
  intros Hb s'. subst s'. repeat split.
  - apply (stopPreview_Stopped s Hb).
  - destruct (stopPreview_Stopped s Hb) as [_ H].
    unfold loadAlbums_resume, loadAlbums_begin. simpl. exact H.
Qed.

(** The answer itself replaces the albums and resets the index; it leaves
    the playing flag and the audio element as it finds them. *)
Lemma loadAlbums_resume_success (s : State) (data : AlbumCollection.t) :
  let s' := loadAlbums_resume (inl data) s in
  albums s' = AlbumCollection.albums data /\
  currentIndex s' = 0 /\
  isPlaying s' = isPlaying s /\
  audioRef s' = audioRef s.
Proof. repeat split. Qed.

(** C4, where the code departs from it.  [loadAlbums] stops playback before
    it sends the request, not when the answer arrives: a preview started
    while the request is pending (by the space key, or by the deferred
    autoplay of an earlier navigation) is still playing after the load has
    succeeded.  The crate is the new one and the index is 0, but [isPlaying]
    is set and the audio element plays the preview of an album of the old
    crate. *)
Theorem loadAlbums_success_still_playing :
  reachable reload_space /\
  albums reload_space = [album3] /\
  currentIndex reload_space = 0 /\
  isPlaying reload_space = true /\
  (Audio.src <$> audioRef reload_space) = Some (Album.preview_url album1) /\
  (Audio.paused <$> audioRef reload_space) = Some false /\
  reachable reload_autoplay /\
  albums reload_autoplay = [album3] /\
  currentIndex reload_autoplay = 0 /\
  isPlaying reload_autoplay = true /\
  (Audio.src <$> audioRef reload_autoplay) = Some (Album.preview_url album2) /\
  (Audio.paused <$> audioRef reload_autoplay) = Some false.
Proof.
  repeat split;
    try (vm_compute; reflexivity);
    repeat apply reachable_run_events; apply reachable_mount.
Qed.

(** ** The repository's own tests, replayed on the model *)

(** [api.test.ts]: the URLs requested by [fetchRandomAlbums]. *)
Example fetchRandomAlbums_default_count :
  fetchRandomAlbums_url (API_BASE None) None None None =
  "http://localhost:8000/albums/random?count=10".
Proof. reflexivity. Qed.

Example fetchRandomAlbums_custom_count :
  fetchRandomAlbums_url (API_BASE None) (Some 5) None None =
  "http://localhost:8000/albums/random?count=5".
Proof. reflexivity. Qed.

Example fetchRandomAlbums_genre_ids :
  fetchRandomAlbums_url (API_BASE None) (Some 10) (Some [129; 152]) None =
  "http://localhost:8000/albums/random?count=10&genres=129,152".
Proof. reflexivity. Qed.

Example fetchRandomAlbums_empty_genres :
  fetchRandomAlbums_url (API_BASE None) (Some 10) (Some []) None =
  "http://localhost:8000/albums/random?count=10".
Proof. reflexivity. Qed.

Example fetchRandomAlbums_failed_response :
  fetchRandomAlbums_settle (Response false None) =
  inr (Error "Failed to fetch albums").
Proof. reflexivity. Qed.

(** The component's tests: what is requested on mount, the progress
    indicator and the navigation buttons of a crate of two albums. *)
Example mount_requests :
  requests (mount (Audio.fresh false)) =
  [ReqGenres; ReqAlbums (Some 10) None None].
Proof. reflexivity. Qed.

Example loaded_first_album :
  view loaded = ViewCrate /\
  currentAlbum loaded = Some album1 /\
  progress_indicator loaded = "1 / 2" /\
  prev_disabled loaded = true /\
  next_disabled loaded = false.
Proof. repeat split. Qed.

Example loaded_after_next :
  currentAlbum (step loaded EvClickNext) = Some album2 /\
  progress_indicator (step loaded EvClickNext) = "2 / 2" /\
  prev_disabled (step loaded EvClickNext) = false /\
  next_disabled (step loaded EvClickNext) = true.
Proof. repeat split. Qed.

Example toggle_first_chip :
  selectedGenres (step loaded (EvToggleGenre 132)) = [132].
Proof. reflexivity. Qed.

Example jazz_rock_names : selectedGenreNames jazz_rock = "Rock, Jazz".
Proof. reflexivity. Qed.

Example mount_then_failure :
  view (run_events [EvAlbumsSettled 1 NetworkError] (mount (Audio.fresh false)))
  = ViewError load_error_message.
Proof. reflexivity. Qed.

(** ** Further facts about the script *)

Lemma playPreview_unfold (s : State) :
  playPreview s =
  match currentAlbum s, audioRef s with
  | Some album, Some a =>
      set_isPlaying true
        (set_audioRef
           (Some (Audio.play
                    (Audio.set_volume (1 # 2)%Q
                       (Audio.set_src (Album.preview_url album) a))))
           (set_hasInteracted true s))
  | _, _ => s
  end.
Proof.
  unfold playPreview, playPreview_prog.
  destruct (currentAlbum s) as [album|]; [|reflexivity].
  destruct s as [? ? ? ? [a|] ? ? ? ? ? ? ? ? ? ? ? ? ?]; reflexivity.
Qed.

(** Unfolds the handlers of an event down to assignments and splits on
    every test they make. *)
Ltac script_cases :=
  unfold handleKeydown, handleDragStart, handleDragMove, handleDragEnd,
    toggleGenre, clearGenreFilter, loadAlbums_begin, loadAlbums_resume,
    loadGenres_begin, loadGenres_resume, run_callback, on_audio, push;
  rewrite ?goToNext_unfold, ?goToPrev_unfold;
  unfold schedule_autoplay, setTimeout, push;
  rewrite ?playPreview_unfold, ?stopPreview_unfold;
  unfold negb; simpl;
  repeat (case_match; simpl in *; try discriminate; try congruence);
  simpl in *.

Lemma step_albums (s : State) (ev : Event) :
  replaces_crate s ev = false -> albums (step s ev) = albums s.
Proof.
  destruct ev; simpl; intros H; script_cases; try reflexivity.
  all: unfold albums_loaded in H; repeat case_match; congruence.
Qed.

Ltac ltb_to_Prop :=
  repeat match goal with
  | H : (_ <? _) = true |- _ => apply Z.ltb_lt in H
  | H : (_ <? _) = false |- _ => apply Z.ltb_ge in H
  | H : (_ =? _) = true |- _ => apply Z.eqb_eq in H
  | H : (_ =? _) = false |- _ => apply Z.eqb_neq in H
  end.

(** X1. The crate is replaced by nothing but a successful answer to a
    pending albums request: every other event leaves the albums as they
    are, and such an answer installs the fetched albums with the index
    at 0. *)
Theorem crate_replaced_only_by_load (s : State) (ev : Event) :
  (replaces_crate s ev = false -> albums (step s ev) = albums s) /\
  (replaces_crate s ev = true ->
   exists k data,
     ev = EvAlbumsSettled k (Response true (Some data)) /\
     albums (step s ev) = AlbumCollection.albums data /\
     currentIndex (step s ev) = 0).
Proof.
  split; [apply step_albums|].
  destruct ev; simpl; try discriminate.
  destruct (requests s !! k) as [[|c g m]|] eqn:Hk; try discriminate.
  unfold albums_loaded.
  destruct r as [|[] [data|]]; simpl; try discriminate.
  intros _. exists k, data. repeat split.
Qed.

Lemma crate_replaced_only_by_load_witness :
  albums (step loaded EvClickNext) = [album1; album2] /\
  albums (step reloading EvDragEnd) = [album1; album2] /\
  albums (step reloading (EvAlbumsSettled 0 NetworkError)) = [album1; album2].
Proof.
  split; [|split].
  - apply (crate_replaced_only_by_load loaded EvClickNext). reflexivity.
  - apply (crate_replaced_only_by_load reloading EvDragEnd). reflexivity.
  - apply (crate_replaced_only_by_load reloading
             (EvAlbumsSettled 0 NetworkError)). reflexivity.
Defined.

Lemma step_selectedGenres (s : State) (ev : Event) :
  edits_selection ev = false ->
  selectedGenres (step s ev) = selectedGenres s.
Proof.
  destruct ev; simpl; intros H; try discriminate H; script_cases;
    reflexivity.
Qed.

(** X2. The genre selection is changed by [toggleGenre] and
    [clearGenreFilter] only, and these two start no reload: they issue no
    request and leave the albums, the index and the loading flag alone. *)
Theorem selection_edits_do_not_reload (s : State) (ev : Event) :
  (edits_selection ev = false ->
   selectedGenres (step s ev) = selectedGenres s) /\
  (edits_selection ev = true ->
   requests (step s ev) = requests s /\
   albums (step s ev) = albums s /\
   currentIndex (step s ev) = currentIndex s /\
   isLoading (step s ev) = isLoading s /\
   showOnlyAlbums (step s ev) = showOnlyAlbums s).
Proof.
  split; [apply step_selectedGenres|].
  destruct ev; simpl; try discriminate; intros _; script_cases;
    repeat split.
Qed.

Lemma selection_edits_do_not_reload_witness :
  selectedGenres (step jazz_rock EvLoadAlbums) = [129; 152] /\
  selectedGenres (step jazz_rock EvClickNext) = [129; 152] /\
  requests (step jazz_rock (EvToggleGenre 132)) = [] /\
  requests (step jazz_rock EvClearGenreFilter) = [].
Proof.
  destruct (selection_edits_do_not_reload jazz_rock EvLoadAlbums) as [H1 _].
  destruct (selection_edits_do_not_reload jazz_rock EvClickNext) as [H2 _].
  destruct (selection_edits_do_not_reload jazz_rock (EvToggleGenre 132))
    as [_ H3].
  destruct (selection_edits_do_not_reload jazz_rock EvClearGenreFilter)
    as [_ H4].
  split; [exact (H1 eq_refl)|]. split; [exact (H2 eq_refl)|].
  split; [apply (H3 eq_refl)|apply (H4 eq_refl)].
Defined.

Lemma step_hasInteracted (s : State) (ev : Event) :
  hasInteracted s = true -> hasInteracted (step s ev) = true.
Proof. destruct ev; simpl; intros H; script_cases; congruence. Qed.

Lemma step_playing_interacted (s : State) (ev : Event) :
  (isPlaying s = true -> hasInteracted s = true) ->
  isPlaying (step s ev) = true -> hasInteracted (step s ev) = true.
Proof.
  destruct ev; simpl; intros H; script_cases; intros; auto;
    try congruence; try (apply H; congruence).
Qed.

(** X3. Once a preview has been started by hand, [hasInteracted] stays
    set through every later event; and throughout the life of the mounted
    component, whenever [isPlaying] is set, [hasInteracted] is set too. *)
Theorem interaction_is_remembered (s : State) :
  reachable s ->
  (isPlaying s = true -> hasInteracted s = true) /\
  (hasInteracted s = true ->
   forall evs, hasInteracted (run_events evs s) = true).
Proof.
  intros Hr. split.
  - induction Hr as [a|s ev _ IH]; [discriminate|].
    apply step_playing_interacted, IH.
  - intros H evs. revert s Hr H.
    induction evs as [|ev evs IH]; intros s Hr H; [exact H|].
    apply (IH (step s ev)); [apply reachable_step, Hr|].
    apply step_hasInteracted, H.
Qed.

Lemma interaction_is_remembered_witness :
  hasInteracted playing = true /\
  hasInteracted
    (run_events [EvClickCard; EvClickNext; EvLoadAlbums; EvClearGenreFilter]
       playing) = true.
Proof.
  assert (reachable playing) as Hr.
  { apply reachable_step. apply reachable_run_events. apply reachable_mount. }
  destruct (interaction_is_remembered playing Hr) as [Hp Hs].
  split; [apply Hp; reflexivity|].
  apply Hs. apply Hp. reflexivity.
Defined.

Lemma step_gesture_neutral (s : State) (ev : Event) :
  (isDragging s = false -> dragOffset s = 0) ->
  isDragging (step s ev) = false -> dragOffset (step s ev) = 0.
Proof.
  destruct ev; simpl; intros H; script_cases; intros; auto;
    try congruence; try (apply H; congruence).
Qed.

(** X4. Outside a drag the recorded offset is 0, in every state of the
    mounted component: no event leaves a stale offset behind. *)
Theorem gesture_neutral_when_idle (s : State) :
  reachable s -> isDragging s = false -> dragOffset s = 0.
Proof.
  induction 1 as [a|s ev _ IH]; [reflexivity|].
  apply step_gesture_neutral, IH.
Qed.

Lemma gesture_neutral_when_idle_witness :
  dragOffset (drag_release 200 245 loaded) = 0.
Proof.
  apply gesture_neutral_when_idle; [|reflexivity].
  apply reachable_run_events. apply reachable_run_events.
  apply reachable_mount.
Defined.

Lemma step_index_range (s : State) (ev : Event) :
  index_range s -> index_range (step s ev).
Proof.
  unfold index_range.
  destruct ev; simpl; intros H; script_cases; ltb_to_Prop; lia.
Qed.

Lemma reachable_index_range (s : State) : reachable s -> index_range s.
Proof.
  induction 1 as [a|s ev _ IH].
  - unfold index_range. simpl. lia.
  - apply step_index_range, IH.
Qed.

Lemma js_index_is_Some {A} (l : list A) (i : Z) :
  is_Some (js_index l i) <-> 0 <= i < js_length l.
Proof.
  unfold js_index, js_length.
  destruct (Z.ltb_spec i 0) as [Hneg|Hpos].
  - split; [intros [x Hx]; discriminate|intros; lia].
  - rewrite lookup_lt_is_Some. lia.
Qed.

(** X5. Throughout the life of the mounted component the index is at
    least 0 and at most the last position of the crate (0 for an empty
    crate), and whenever the crate view is rendered there is an album at
    the index: the template's unguarded reads of [currentAlbum] find
    one. *)
Theorem crate_view_has_current_album (s : State) :
  reachable s ->
  0 <= currentIndex s <= Z.max 0 (js_length (albums s) - 1) /\
  (albums s = [] -> currentIndex s = 0) /\
  (view s = ViewCrate -> is_Some (currentAlbum s)).
Proof.
  intros Hr. pose proof (reachable_index_range s Hr) as Hi.
  unfold index_range in Hi. split; [exact Hi|]. split.
  - intros He. rewrite He in Hi. unfold js_length in Hi.
    simpl length in Hi. lia.
  - intros Hv. apply js_index_is_Some.
    assert (0 < js_length (albums s)) as Hn; [|lia].
    unfold view in Hv. repeat case_match; try discriminate;
      ltb_to_Prop; assumption.
Qed.

Lemma crate_view_has_current_album_witness :
  is_Some (currentAlbum (goToNext loaded)) /\
  currentIndex (mount (Audio.fresh true)) = 0.
Proof.
  split.
  - apply (crate_view_has_current_album (goToNext loaded));
      [|reflexivity].
    apply (reachable_step loaded EvClickNext).
    apply reachable_run_events, reachable_mount.
  - apply (crate_view_has_current_album (mount (Audio.fresh true)));
      [apply reachable_mount|reflexivity].
Defined.

Lemma goToNext_albums s : albums (goToNext s) = albums s.
Proof. script_cases; reflexivity. Qed.

Lemma goToPrev_albums s : albums (goToPrev s) = albums s.
Proof. script_cases; reflexivity. Qed.

Lemma goToNext_currentIndex s :
  currentIndex (goToNext s) =
  if currentIndex s <? js_length (albums s) - 1 then currentIndex s + 1
  else currentIndex s.
Proof. script_cases; reflexivity. Qed.

Lemma goToPrev_currentIndex s :
  currentIndex (goToPrev s) =
  if 0 <? currentIndex s then currentIndex s - 1 else currentIndex s.
Proof. script_cases; reflexivity. Qed.

(** X6. With the index inside the crate, each navigation button is
    disabled exactly when its handler would change nothing, and the
    neighbouring card is rendered exactly when the button towards it is
    enabled. *)
Theorem buttons_match_handlers (s : State) :
  0 <= currentIndex s < js_length (albums s) ->
  (prev_disabled s = true <-> goToPrev s = s) /\
  (next_disabled s = true <-> goToNext s = s) /\
  (prev_disabled s = false <-> is_Some (prevAlbum s)) /\
  (next_disabled s = false <-> is_Some (nextAlbum s)).
Proof.
  intros Hi. unfold prev_disabled, next_disabled, prevAlbum, nextAlbum.
  rewrite !js_index_is_Some.
  split; [|split; [|split]].
  - split; intros H.
    + ltb_to_Prop. rewrite goToPrev_unfold.
      destruct (Z.ltb_spec 0 (currentIndex s)); [lia|reflexivity].
    + apply Z.eqb_eq. apply (f_equal currentIndex) in H.
      rewrite goToPrev_currentIndex in H.
      destruct (Z.ltb_spec 0 (currentIndex s)); lia.
  - split; intros H.
    + ltb_to_Prop. rewrite goToNext_unfold.
      destruct (Z.ltb_spec (currentIndex s) (js_length (albums s) - 1));
        [lia|reflexivity].
    + apply Z.eqb_eq. apply (f_equal currentIndex) in H.
      rewrite goToNext_currentIndex in H.
      destruct (Z.ltb_spec (currentIndex s) (js_length (albums s) - 1)); lia.
  - rewrite Z.eqb_neq. lia.
  - rewrite Z.eqb_neq. lia.
Qed.

Lemma buttons_match_handlers_witness :
  goToPrev loaded = loaded /\
  is_Some (nextAlbum loaded) /\
  goToNext (goToNext loaded) = goToNext loaded /\
  is_Some (prevAlbum (goToNext loaded)).
Proof.
  assert (0 <= currentIndex loaded < js_length (albums loaded)) as H0
    by (vm_compute; split; [discriminate|reflexivity]).
  assert (0 <= currentIndex (goToNext loaded)
          < js_length (albums (goToNext loaded))) as H1
    by (vm_compute; split; [discriminate|reflexivity]).
  destruct (buttons_match_handlers loaded H0) as (Hp & _ & _ & Hn).
  destruct (buttons_match_handlers (goToNext loaded) H1)
    as (_ & Hl & Hpa & _).
  split; [apply Hp; reflexivity|]. split; [apply Hn; reflexivity|].
  split; [apply Hl; reflexivity|apply Hpa; reflexivity].
Defined.

(** X7. Inside the crate, next then previous, and previous then next,
    come back to the index one started from, with the same albums. *)
Theorem navigation_round_trip (s : State) :
  0 <= currentIndex s < js_length (albums s) ->
  (currentIndex s < js_length (albums s) - 1 ->
   currentIndex (goToPrev (goToNext s)) = currentIndex s /\
   albums (goToPrev (goToNext s)) = albums s) /\
  (0 < currentIndex s ->
   currentIndex (goToNext (goToPrev s)) = currentIndex s /\
   albums (goToNext (goToPrev s)) = albums s).
Proof.
  intros Hi. split; intros H.
  - rewrite goToPrev_albums, goToNext_albums, goToPrev_currentIndex,
      goToNext_currentIndex.
    destruct (Z.ltb_spec (currentIndex s) (js_length (albums s) - 1)); [|lia].
    destruct (Z.ltb_spec 0 (currentIndex s + 1)); [|lia].
    split; [lia|reflexivity].
  - rewrite goToNext_albums, goToPrev_albums, goToNext_currentIndex,
      goToPrev_albums, goToPrev_currentIndex.
    destruct (Z.ltb_spec 0 (currentIndex s)); [|lia].
    destruct (Z.ltb_spec (currentIndex s - 1) (js_length (albums s) - 1));
      [|lia].
    split; [lia|reflexivity].
Qed.

Lemma navigation_round_trip_witness :
  currentIndex (goToPrev (goToNext loaded)) = 0 /\
  currentIndex (goToNext (goToPrev (goToNext loaded))) = 1.
Proof.
  assert (0 <= currentIndex loaded < js_length (albums loaded)) as H0
    by (vm_compute; split; [discriminate|reflexivity]).
  assert (0 <= currentIndex (goToNext loaded)
          < js_length (albums (goToNext loaded))) as H1
    by (vm_compute; split; [discriminate|reflexivity]).
  destruct (navigation_round_trip loaded H0) as [Hn _].
  destruct (navigation_round_trip (goToNext loaded) H1) as [_ Hp].
  split; [apply Hn; reflexivity|apply Hp; reflexivity].
Defined.

Lemma iter_goToNext_albums k s : albums (Nat.iter k goToNext s) = albums s.
Proof.
  induction k as [|k IH]; [reflexivity|]. simpl.
  rewrite goToNext_albums. exact IH.
Qed.

Lemma iter_goToPrev_albums k s : albums (Nat.iter k goToPrev s) = albums s.
Proof.
  induction k as [|k IH]; [reflexivity|]. simpl.
  rewrite goToPrev_albums. exact IH.
Qed.

(** X8. Pressing next [k] times from index [i] of a crate of [n] albums
    ends at [min (i + k) (n - 1)], and pressing previous [k] times at
    [max (i - k) 0]: navigation saturates at the two ends and never
    wraps around. *)
Theorem navigation_saturates (s : State) (k : nat) :
  0 <= currentIndex s < js_length (albums s) ->
  currentIndex (Nat.iter k goToNext s) =
    Z.min (currentIndex s + Z.of_nat k) (js_length (albums s) - 1) /\
  currentIndex (Nat.iter k goToPrev s) =
    Z.max (currentIndex s - Z.of_nat k) 0.
Proof.
  intros Hi. split.
  - induction k as [|k IH]; [simpl; lia|].
    rewrite Nat.iter_succ, goToNext_currentIndex, iter_goToNext_albums, IH.
    destruct (Z.ltb_spec
      (Z.min (currentIndex s + Z.of_nat k) (js_length (albums s) - 1))
      (js_length (albums s) - 1)); lia.
  - induction k as [|k IH]; [simpl; lia|].
    rewrite Nat.iter_succ, goToPrev_currentIndex, IH.
    destruct (Z.ltb_spec 0 (Z.max (currentIndex s - Z.of_nat k) 0)); lia.
Qed.

Lemma navigation_saturates_witness :
  currentIndex (Nat.iter 5 goToNext loaded) = 1 /\
  currentIndex (Nat.iter 5 goToPrev (goToNext loaded)) = 0.
Proof.
  assert (0 <= currentIndex loaded < js_length (albums loaded)) as H0
    by (vm_compute; split; [discriminate|reflexivity]).
  assert (0 <= currentIndex (goToNext loaded)
          < js_length (albums (goToNext loaded))) as H1
    by (vm_compute; split; [discriminate|reflexivity]).
  split.
  - apply (navigation_saturates loaded 5 H0).
  - apply (navigation_saturates (goToNext loaded) 5 H1).
Defined.

(** X9. After a preview has once been started by hand, a [goToNext] that
    moves to an album schedules one [playPreview] 150 ms later and leaves
    playback stopped meanwhile; when that timer fires, the album now at
    the index is the one that plays, from position 0. *)
Theorem deferred_autoplay_plays_new_album (s : State) (album : Album.t) :
  hasInteracted s = true ->
  is_Some (audioRef s) ->
  nextAlbum s = Some album ->
  let s1 := goToNext s in
  let s2 := step s1 (EvTimeout (length (timers s))) in
  currentIndex s1 = currentIndex s + 1 /\
  Stopped s1 /\
  timers s1 = timers s ++ [{| callback := cb_playPreview; delay := 150 |}] /\
  timers s2 = timers s /\
  isPlaying s2 = true /\
  currentAlbum s2 = Some album /\
  Audio.src <$> audioRef s2 = Some (Album.preview_url album) /\
  Audio.currentTime <$> audioRef s2 = Some 0.
Proof.
  intros Hh [a Ha] Hnext s1 s2.
  assert (currentIndex s < js_length (albums s) - 1) as Hlt.
  { assert (is_Some (nextAlbum s)) as Hs by (rewrite Hnext; eauto).
    apply js_index_is_Some in Hs. lia. }
  apply Z.ltb_lt in Hlt.
  assert (s1 =
    set_timers (timers s ++ [{| callback := cb_playPreview; delay := 150 |}])
      (set_currentIndex (currentIndex s + 1)
         (set_isPlaying false
            (set_audioRef (Some (Audio.set_currentTime 0 (Audio.pause a)))
               s)))) as E1.
  { subst s1. rewrite goToNext_unfold, Hlt, stopPreview_unfold, Ha.
    unfold schedule_autoplay, setTimeout, push. simpl. rewrite Hh.
    reflexivity. }
  assert (currentAlbum s1 = Some album) as Hc.
  { rewrite E1. exact Hnext. }
  subst s2. rewrite E1. simpl.
  rewrite list_lookup_middle by reflexivity. simpl.
  rewrite delete_middle, app_nil_r, playPreview_unfold.
  unfold currentAlbum, nextAlbum in *. simpl. rewrite Hnext. simpl.
  unfold Audio.play. simpl.
  destruct (Audio.blocked a);
    repeat split; first [reflexivity | exact Hnext].
Qed.

Lemma deferred_autoplay_plays_new_album_witness :
  timers (goToNext playing) = [{| callback := cb_playPreview; delay := 150 |}] /\
  currentAlbum (step (goToNext playing) (EvTimeout 0)) = Some album2 /\
  isPlaying (step (goToNext playing) (EvTimeout 0)) = true.
Proof.
  destruct (deferred_autoplay_plays_new_album playing album2 eq_refl
              (mk_is_Some _ _ eq_refl) eq_refl)
    as (_ & _ & Ht & _ & Hp & Hc & _).
  split; [exact Ht|]. split; [exact Hc|exact Hp].
Defined.

(** X10. With an album at the index and the audio element bound, a click
    on the card and the space key do the same thing: they flip
    [isPlaying].  Starting flips it to true even when the runtime refuses
    to play (the element then stays paused); the element's source is the
    preview of the current album and its volume one half.  Stopping again
    leaves the element paused at position 0. *)
Theorem play_stop_toggle (s : State) (album : Album.t) (a : Audio.t) :
  currentAlbum s = Some album ->
  audioRef s = Some a ->
  isPlaying (step s EvClickCard) = negb (isPlaying s) /\
  handleKeydown " " s = step s EvClickCard /\
  (isPlaying s = false ->
   exists a1,
     audioRef (step s EvClickCard) = Some a1 /\
     Audio.src a1 = Album.preview_url album /\
     Audio.volume a1 = (1 # 2)%Q /\
     Audio.paused a1 = (if Audio.blocked a then Audio.paused a else false) /\
     hasInteracted (step s EvClickCard) = true /\
     Stopped (step (step s EvClickCard) EvClickCard) /\
     currentAlbum (step (step s EvClickCard) EvClickCard) = Some album).
Proof.
  intros Hc Ha. split; [|split].
  - simpl. destruct (isPlaying s) eqn:Hp.
    + rewrite stopPreview_unfold, Ha. reflexivity.
    + rewrite playPreview_unfold, Hc, Ha. reflexivity.
  - reflexivity.
  - intros Hp. simpl. rewrite Hp, playPreview_unfold, Hc, Ha. simpl.
    rewrite stopPreview_unfold. simpl.
    eexists. split; [reflexivity|].
    unfold Audio.play. simpl.
    destruct (Audio.blocked a); simpl; repeat split; try reflexivity;
      exact Hc.
Qed.

Lemma play_stop_toggle_witness :
  isPlaying (step loaded EvClickCard) = true /\
  isPlaying (step playing EvClickCard) = false /\
  handleKeydown " " playing = step playing EvClickCard.
Proof.
  destruct (play_stop_toggle loaded album1 (Audio.fresh false)
              eq_refl eq_refl) as (H1 & _).
  destruct (play_stop_toggle playing album1
              (Audio.play (Audio.set_volume (1 # 2)%Q
                 (Audio.set_src (Album.preview_url album1)
                    (Audio.fresh false))))
              eq_refl eq_refl) as (H2 & H3 & _).
  split; [exact H1|]. split; [exact H2|exact H3].
Defined.

Lemma goToPrev_set_dragOffset v s :
  goToPrev (set_dragOffset v s) = set_dragOffset v (goToPrev s).
Proof. script_cases; reflexivity. Qed.

Lemma goToNext_set_dragOffset v s :
  goToNext (set_dragOffset v s) = set_dragOffset v (goToNext s).
Proof. script_cases; reflexivity. Qed.

Lemma goToPrev_set_dragStartX v s :
  goToPrev (set_dragStartX v s) = set_dragStartX v (goToPrev s).
Proof. script_cases; reflexivity. Qed.

Lemma goToNext_set_dragStartX v s :
  goToNext (set_dragStartX v s) = set_dragStartX v (goToNext s).
Proof. script_cases; reflexivity. Qed.

Lemma run_drag_moves (xs : list PointerInput) (s : State) :
  isDragging s = true ->
  run_events (EvDragMove <$> xs) s =
  match last xs with
  | Some x => set_dragOffset (pointerX x - dragStartX s) s
  | None => s
  end.
Proof.
  revert s. induction xs as [|x xs IH]; intros s Hd; [reflexivity|].
  change (run_events (EvDragMove <$> x :: xs) s)
    with (run_events (EvDragMove <$> xs) (handleDragMove x s)).
  unfold handleDragMove. rewrite Hd. simpl negb. cbv iota.
  rewrite IH by exact Hd. rewrite last_cons.
  destruct (last xs); reflexivity.
Qed.

(** X11. A whole drag (press, any number of moves, release) does what its
    last move says and nothing else: [goToPrev] when the pointer ended
    more than 80 to the right of where it was pressed, [goToNext] when
    more than 80 to the left, no navigation otherwise (in particular for a
    press and release without a move); intermediate moves do not count,
    and the gesture ends neutral. *)
Theorem drag_gesture_outcome (s : State) (x0 : PointerInput)
    (xs : list PointerInput) :
  let off := release_offset x0 xs in
  run_events (drag_gesture x0 xs) s =
  set_dragStartX (pointerX x0)
    (reset_gesture
       (if 80 <? off then goToPrev s
        else if off <? -80 then goToNext s
        else s)).
Proof.
  unfold drag_gesture, release_offset, run_events. simpl foldl.
  rewrite foldl_app. fold (run_events (EvDragMove <$> xs) (handleDragStart x0 s)).
  rewrite run_drag_moves by reflexivity. simpl foldl.
  unfold reset_gesture, handleDragEnd. change (- (80)) with (-80).
  destruct (last xs) as [x|]; script_cases; reflexivity.
Qed.

Lemma retry_url (base : string) (s s' : State) :
  selectedGenres s' = selectedGenres s ->
  showOnlyAlbums s' = showOnlyAlbums s ->
  loadAlbums_url base s' = loadAlbums_url base s.
Proof. intros Hg Ha. rewrite !loadAlbums_url_unfold, Hg, Ha. reflexivity. Qed.

Lemma step_showOnlyAlbums (s : State) (ev : Event) :
  (forall b, ev <> EvReleaseType b) ->
  showOnlyAlbums (step s ev) = showOnlyAlbums s.
Proof.
  destruct ev; simpl; intros H; try (exfalso; eapply H; reflexivity);
    script_cases; reflexivity.
Qed.

(** X12. What [loadAlbums] requests depends on the genre selection and
    the release-type switch alone.  Any event that touches neither
    (navigation, playback, drags, timers, answers to requests, failed ones
    included) leaves the URL of the next load unchanged: [Try Again] after
    a failure asks for the same thing. *)
Theorem next_request_depends_on_filters (base : string) (s : State)
    (ev : Event) :
  edits_selection ev = false ->
  (forall b, ev <> EvReleaseType b) ->
  loadAlbums_url base (step s ev) = loadAlbums_url base s.
Proof.
  intros He Hr. apply retry_url.
  - apply step_selectedGenres, He.
  - apply step_showOnlyAlbums, Hr.
Qed.

Lemma next_request_depends_on_filters_witness :
  loadAlbums_url default_api_base
    (step (step jazz_rock_albums (EvAlbumsSettled 0 NetworkError))
       EvClickNext) =
  Some "http://localhost:8000/albums/random?count=10&genres=129,152&min_tracks=2".
Proof.
  rewrite (next_request_depends_on_filters default_api_base _ EvClickNext
             eq_refl) by discriminate.
  rewrite (next_request_depends_on_filters default_api_base _
             (EvAlbumsSettled 0 NetworkError) eq_refl) by discriminate.
  reflexivity.
Defined.

(** X13. Answers are applied in the order they arrive, not in the order
    the requests were sent: when two albums requests are pending and the
    answer to the later one arrives first, the answer to the earlier one
    then replaces the crate, so the crate shown is that of the older
    request. *)
Theorem late_answer_replaces_crate (s : State) (k1 k2 : nat)
    (c1 c2 : option Z) (g1 g2 : option (list Z)) (m1 m2 : option Z)
    (older newer : AlbumCollection.t) :
  (k1 < k2)%nat ->
  requests s !! k1 = Some (ReqAlbums c1 g1 m1) ->
  requests s !! k2 = Some (ReqAlbums c2 g2 m2) ->
  let s' :=
    run_events
      [ EvAlbumsSettled k2 (Response true (Some newer));
        EvAlbumsSettled k1 (Response true (Some older)) ] s in
  albums s' = AlbumCollection.albums older /\
  currentIndex s' = 0 /\
  isLoading s' = false /\
  requests s' = delete k1 (delete k2 (requests s)).
Proof.
  intros Hlt H1 H2 s'. subst s'. unfold run_events. simpl.
  rewrite H2. simpl.
  rewrite list_lookup_delete_lt by exact Hlt. rewrite H1. simpl.
  repeat split.
Qed.

Lemma late_answer_replaces_crate_witness :
  albums
    (run_events
       [ EvAlbumsSettled 1 (Response true (Some newCrate));
         EvAlbumsSettled 0 (Response true (Some mockAlbums)) ]
       two_reloads) = [album1; album2].
Proof.
  apply (late_answer_replaces_crate two_reloads 0 1 (Some 10) (Some 10)
           None None None None mockAlbums newCrate);
    [lia|reflexivity|reflexivity].
Defined.

(** X14. However the genres request ends, the albums, the index, the
    error message and the view rendered are untouched.  A failure is only
    logged to the console and leaves the genre list as it was; a success
    replaces the genre list and logs nothing. *)
Theorem loadGenres_never_shows_error (s : State) (k : nat)
    (r : Fetched (list Genre.t)) :
  requests s !! k = Some ReqGenres ->
  let s' := step s (EvGenresSettled k r) in
  view s' = view s /\
  error s' = error s /\
  albums s' = albums s /\
  currentIndex s' = currentIndex s /\
  requests s' = delete k (requests s) /\
  (forall e, fetchGenres_settle r = inr e ->
     genres s' = genres s /\
     console s' = console s ++ ["Failed to load genres"]) /\
  (forall data, fetchGenres_settle r = inl data ->
     genres s' = data /\ console s' = console s).
Proof.
  intros Hk s'. subst s'. simpl. rewrite Hk.
  destruct (fetchGenres_settle r) as [data|e]; simpl;
    do 5 (split; [reflexivity|]); split; intros x Hx;
    try discriminate Hx; try (injection Hx as <-); split; reflexivity.
Qed.

Lemma loadGenres_never_shows_error_witness :
  view (step (mount (Audio.fresh false)) (EvGenresSettled 0 NetworkError))
    = ViewLoading /\
  genres (step (mount (Audio.fresh false)) (EvGenresSettled 0 NetworkError))
    = [] /\
  console (step (mount (Audio.fresh false)) (EvGenresSettled 0 NetworkError))
    = ["Failed to load genres"].
Proof.
  destruct (loadGenres_never_shows_error (mount (Audio.fresh false)) 0
              NetworkError eq_refl) as (Hv & _ & _ & _ & _ & Hf & _).
  destruct (Hf TypeError eq_refl) as [Hg Hc].
  split; [exact Hv|]. split; [exact Hg|exact Hc].
Defined.



(** X16. On a selection without repeated ids, [toggleGenre g] flips the
    membership of [g] and of no other id. *)
Theorem toggleGenre_membership (s : State) (g : Z) :
  NoDup (selectedGenres s) ->
  (g ∈ selectedGenres (toggleGenre g s) <-> g ∉ selectedGenres s) /\
  (forall x, x <> g ->
     x ∈ selectedGenres (toggleGenre g s) <-> x ∈ selectedGenres s).
Proof.
  intros Hnd. rewrite toggleGenre_selectedGenres.
  destruct (decide (g ∈ selectedGenres s)) as [Hin|Hnin].
  - destruct (toggle_selected_present g _ Hin) as (i & Hlook & ->).
    pose proof (delete_Permutation _ i g Hlook) as Hp.
    pose proof Hnd as Hnd'.
    apply (NoDup_Permutation_proper _ _ Hp) in Hnd'.
    apply NoDup_cons in Hnd' as [Hg _].
    split.
    + split; [intros H; contradiction|intros H; contradiction].
    + intros x Hx. rewrite (elem_of_Permutation_proper x _ _ Hp).
      rewrite elem_of_cons. split; [auto|].
      intros [?|?]; [contradiction|assumption].
  - rewrite (toggle_selected_absent g _ Hnin). split.
    + split; [auto|]. intros _. apply elem_of_app. right. constructor.
    + intros x Hx. rewrite elem_of_app, list_elem_of_singleton.
      split; [intros [?|?]; [assumption|contradiction]|auto].
Qed.

Lemma toggleGenre_membership_witness :
  (152 ∉ selectedGenres (toggleGenre 152 jazz_rock)) /\
  (129 ∈ selectedGenres (toggleGenre 152 jazz_rock)) /\
  (132 ∈ selectedGenres (toggleGenre 132 jazz_rock)).
Proof.
  assert (NoDup (selectedGenres jazz_rock)) as Hnd.
  { vm_compute. apply NoDup_cons. split.
    - intros H. apply list_elem_of_singleton in H. discriminate.
    - apply NoDup_singleton. }
  destruct (toggleGenre_membership jazz_rock 152 Hnd) as [H152 Hother].
  destruct (toggleGenre_membership jazz_rock 132 Hnd) as [H132 _].
  split; [|split].
  - intros H. apply H152 in H. apply H. vm_compute.
    apply elem_of_cons. right. apply elem_of_cons. left. reflexivity.
  - apply Hother; [discriminate|]. vm_compute.
    apply elem_of_cons. left. reflexivity.
  - apply H132. vm_compute. intros H.
    apply elem_of_cons in H as [H|H]; [discriminate|].
    apply list_elem_of_singleton in H. discriminate.
Defined.

(** X17. The text shown for the selection depends on which genres are
    selected, not on the order in which they were: it is ['All Genres']
    exactly for the empty selection, and otherwise the names of the
    selected genres in the order of the genre list. *)
Theorem selectedGenreNames_order_independent (s s' : State) :
  genres s' = genres s ->
  selectedGenres s' ≡ₚ selectedGenres s ->
  selectedGenreNames s' = selectedGenreNames s /\
  (selectedGenres s = [] -> selectedGenreNames s = "All Genres") /\
  (selectedGenres s <> [] ->
   selectedGenreNames s =
   String.concat ", "
     (Genre.name <$>
      filter (fun g => Genre.id g ∈ selectedGenres s) (genres s))).
Proof.
  intros Hg Hp. unfold selectedGenreNames, js_length.
  split; [|split].
  - rewrite Hg, (Permutation_length Hp).
    destruct (Z.of_nat (length (selectedGenres s)) =? 0); [reflexivity|].
    f_equal. f_equal. apply list_filter_iff. intros g.
    rewrite Hp. reflexivity.
  - intros ->. reflexivity.
  - intros Hne. destruct (selectedGenres s); [contradiction|reflexivity].
Qed.

Lemma selectedGenreNames_order_independent_witness :
  selectedGenreNames rock_jazz_albums = selectedGenreNames jazz_rock /\
  selectedGenreNames jazz_rock = "Rock, Jazz".
Proof.
  destruct (selectedGenreNames_order_independent jazz_rock rock_jazz_albums)
    as (H & _ & Hn).
  - vm_compute. reflexivity.
  - change (selectedGenres rock_jazz_albums) with [152; 129].
    change (selectedGenres jazz_rock) with [129; 152].
    apply perm_swap.
  - split; [exact H|]. rewrite Hn by discriminate. reflexivity.
Defined.









Example url_safe_excludes :
  forallb (fun c => negb (url_safe c))
    (String.list_ascii_of_string " /?#&=+:") = true.
Proof. reflexivity. Qed.

Example encodeURIComponent_ac_dc :
  encodeURIComponent "AC/DC Back in Black?" = "AC%2FDC%20Back%20in%20Black%3F".
Proof. reflexivity. Qed.

(** X19. With the audio element bound, [toggleGenre] and the start of
    [loadAlbums] leave playback stopped whatever was playing;
    [clearGenreFilter] does not touch playback. *)
Theorem filter_edits_and_playback (s : State) (g : Z) :
  is_Some (audioRef s) ->
  Stopped (toggleGenre g s) /\
  Stopped (loadAlbums_begin s) /\
  isPlaying (clearGenreFilter s) = isPlaying s /\
  audioRef (clearGenreFilter s) = audioRef s.
Proof.
  intros H.
  assert (Stopped (stopPreview s)) as Hs.
  { apply stopPreview_Stopped. intros _. exact H. }
  split; [|split; [|split; reflexivity]].
  - unfold toggleGenre.
    destruct (indexOf g (selectedGenres (stopPreview s)) =? -1); exact Hs.
  - exact Hs.
Qed.

Lemma filter_edits_and_playback_witness :
  Stopped (toggleGenre 152 playing) /\
  Stopped (loadAlbums_begin playing) /\
  isPlaying (clearGenreFilter playing) = true.
Proof.
  destruct (filter_edits_and_playback playing 152 (mk_is_Some _ _ eq_refl))
    as (Ht & Hl & Hc & _).
  split; [exact Ht|]. split; [exact Hl|exact Hc].
Defined.

(** X20. A scheduled autoplay is never cancelled: whatever happens other
    than a timer firing (further navigation, a reload, a filter edit, a
    stop), the timers pending before are still pending after, in the same
    order, possibly with a new one behind them. *)
Theorem timers_never_cancelled (s : State) (ev : Event) :
  is_timeout ev = false ->
  timers s `prefix_of` timers (step s ev).
Proof.
  destruct ev; simpl; intros H; try discriminate H; script_cases;
    first [reflexivity | apply prefix_app_r; reflexivity].
Qed.

Lemma timers_never_cancelled_witness :
  timers (goToNext playing) `prefix_of`
  timers (run_events [EvLoadAlbums] (goToNext playing)) /\
  timers (goToNext playing) `prefix_of`
  timers (run_events [EvClickPrev] (goToNext playing)).
Proof.
  split.
  - apply (timers_never_cancelled (goToNext playing) EvLoadAlbums).
    reflexivity.
  - apply (timers_never_cancelled (goToNext playing) EvClickPrev).
    reflexivity.
Defined.
